(** * A token-bucket rate limiter: [AsyncRateLimiter]

    Shallow embedding of [google/cloud/sql/connector/rate_limiter.py].

    Numbers.  The limiter computes with Python numbers ([max_capacity] is an
    [int] by annotation, [rate], the token count and the clock are [float]s).
    The methods are embedded twice.  In the first embedding numbers are
    exact rationals [Q], with [Qeq] ([==]) as equality; it carries the
    general theorems, which are about which expression the code evaluates
    and stores, about its control flow, or rest on steps that rounding
    keeps (comparisons, [min], sums of terms of one sign).  In the second
    embedding, [B64], numbers are binary64 floats, rounded as Python rounds
    them; it is run on concrete inputs, and it is where the code is shown to
    store a count that the exact arithmetic would not give.

    Effects.  The methods read the event loop's clock, sleep, take and
    release a [threading.Lock], and assign to the attributes of [self].
    They are embedded in a state-and-exception monad over a [State] made of
    the object and of the [World] (clock, history of effects).  How much the
    clock advances between two readings and how long a sleep really lasts is
    decided by an environment [Env], so that "monotonic clock" is a
    hypothesis on it. *)

From Stdlib Require Import ZArith QArith Qminmax Lqa Lia List Bool Arith.
From Stdlib Require PrimFloat.
Import ListNotations.

Local Open Scope Q_scope.

(** ** Python numbers and exceptions *)

Module Py.

Inductive exn : Type :=
| ZeroDivisionError      (* raised by [/] on a zero divisor *)
| RuntimeError           (* raised by [Lock.release] on an unlocked lock *)
| InvalidConfiguration.  (* named by the specification; no code path raises it *)

(** [a < b] *)
Definition lt (a b : Q) : bool :=
  match a ?= b with Lt => true | _ => false end.

(** [min(a, b)]: the first argument unless the second is strictly smaller. *)
Definition min (a b : Q) : Q := if lt b a then b else a.

(** [a / b], true division. *)
Definition truediv (a b : Q) : exn + Q :=
  if Qeq_bool b 0 then inl ZeroDivisionError else inr (a / b).

End Py.

(** ** The world: clock, sleeps, history *)

Inductive event : Type :=
| LockAcquire                 (* [lock.acquire] returned *)
| LockRelease                 (* [lock.release()] *)
| ClockRead (t : Q)           (* [self._loop.time()] returned [t] *)
| Sleep (d : Q)               (* [await asyncio.sleep(d)] *)
| StoreTokens (v : Q).        (* [self._tokens] was assigned [v] *)

Record Env : Type := {
  jitter : nat -> Q;       (* clock advance just before the k-th reading *)
  slept  : nat -> Q -> Q   (* real duration of the k-th sleep, given the request *)
}.

Record World : Type := {
  now    : Q;            (* value of the loop's clock *)
  reads  : nat;          (* number of clock readings so far *)
  sleeps : nat;          (* number of sleeps so far *)
  trace  : list event    (* history, oldest first *)
}.

Definition monotonic_clock (env : Env) : Prop :=
  (forall k, 0 <= jitter env k) /\ (forall k d, 0 <= slept env k d).

Definition record (e : event) (w : World) : World :=
  {| now := now w; reads := reads w; sleeps := sleeps w;
     trace := trace w ++ [e] |}.

(** ** The object *)

Record AsyncRateLimiter : Type := {
  rate               : Q;
  max_capacity       : Q;
  _lock              : bool;   (* [threading.Lock]: [true] when held *)
  _tokens            : Q;
  _last_token_update : Q
}.

Record State : Type := {
  self  : AsyncRateLimiter;
  world : World
}.

(** ** The monad of methods *)

Inductive outcome (A : Type) : Type :=
| Returned (a : A)
| Raised (e : Py.exn)
| Blocked.                 (* waits for ever on a lock nobody releases *)

Arguments Returned {A} a.
Arguments Raised {A} e.
Arguments Blocked {A}.

Definition M (A : Type) : Type := State -> outcome A * State.

Definition ret {A} (a : A) : M A := fun s => (Returned a, s).

Definition bind {A B} (m : M A) (k : A -> M B) : M B :=
  fun s =>
    match m s with
    | (Returned a, s') => k a s'
    | (Raised e, s') => (Raised e, s')
    | (Blocked, s') => (Blocked, s')
    end.

Definition raise {A} (e : Py.exn) : M A := fun s => (Raised e, s).

(** [try: body finally: fin] *)
Definition try_finally {A} (body : M A) (fin : M unit) : M A :=
  fun s =>
    match body s with
    | (Blocked, s') => (Blocked, s')
    | (r, s') =>
        match fin s' with
        | (Returned _, s'') => (r, s'')
        | (Raised e, s'') => (Raised e, s'')
        | (Blocked, s'') => (Blocked, s'')
        end
    end.

Declare Scope py_scope.
Delimit Scope py_scope with py.
Notation "x <- m ;; k" := (bind m (fun x => k))
  (at level 61, m at next level, right associativity) : py_scope.
Notation "m ;; k" := (bind m (fun _ => k))
  (at level 61, right associativity) : py_scope.
Local Open Scope py_scope.

Definition on_world (f : World -> World) : M unit :=
  fun s => (Returned tt, {| self := self s; world := f (world s) |}).

Definition on_self (f : AsyncRateLimiter -> AsyncRateLimiter) : M unit :=
  fun s => (Returned tt, {| self := f (self s); world := world s |}).

Definition attr {A} (f : AsyncRateLimiter -> A) : M A :=
  fun s => (Returned (f (self s)), s).

Definition with_lock (b : bool) (o : AsyncRateLimiter) : AsyncRateLimiter :=
  {| rate := rate o; max_capacity := max_capacity o; _lock := b;
     _tokens := _tokens o; _last_token_update := _last_token_update o |}.

Definition with_tokens (v : Q) (o : AsyncRateLimiter) : AsyncRateLimiter :=
  {| rate := rate o; max_capacity := max_capacity o; _lock := _lock o;
     _tokens := v; _last_token_update := _last_token_update o |}.

Definition with_last_token_update (t : Q) (o : AsyncRateLimiter)
  : AsyncRateLimiter :=
  {| rate := rate o; max_capacity := max_capacity o; _lock := _lock o;
     _tokens := _tokens o; _last_token_update := t |}.

(** [self._tokens = v] *)
Definition set_tokens (v : Q) : M unit :=
  on_self (with_tokens v) ;; on_world (record (StoreTokens v)).

(** [self._last_token_update = t] *)
Definition set_last_token_update (t : Q) : M unit :=
  on_self (with_last_token_update t).

(** [a / b] inside a method *)
Definition truediv (a b : Q) : M Q :=
  match Py.truediv a b with
  | inl e => raise e
  | inr q => ret q
  end.

Section Limiter.

Variable env : Env.

(** The clock after its next advance: what the next reading returns. *)
Definition tick (w : World) : Q := now w + jitter env (reads w).

(** Reading the clock of the event loop [w]. *)
Definition clock_time (w : World) : Q * World :=
  let t := tick w in
  (t, {| now := t; reads := S (reads w); sleeps := sleeps w;
         trace := trace w ++ [ClockRead t] |}).

(** Sleeping for a requested [d] on the event loop [w]. *)
Definition clock_sleep (d : Q) (w : World) : World :=
  {| now := now w + slept env (sleeps w) d; reads := reads w;
     sleeps := S (sleeps w); trace := trace w ++ [Sleep d] |}.

(** [self._loop.time()] *)
Definition loop_time : M Q :=
  fun s =>
    let (t, w) := clock_time (world s) in
    (Returned t, {| self := self s; world := w |}).

(** [await asyncio.sleep(d)] *)
Definition asyncio_sleep (d : Q) : M unit := on_world (clock_sleep d).

(** [await loop.run_in_executor(self._pool, lock.acquire)] *)
Definition lock_acquire : M unit :=
  fun s =>
    if _lock (self s) then (Blocked, s)
    else (on_self (with_lock true) ;; on_world (record LockAcquire)) s.

(** [lock.release()] *)
Definition lock_release : M unit :=
  fun s =>
    if _lock (self s)
    then (on_self (with_lock false) ;; on_world (record LockRelease)) s
    else (Raised Py.RuntimeError, s).

(** [AsyncRateLimiter(max_capacity, rate, loop)], on the event loop [w].
    The constructor has no statement that can raise. *)
Definition __init__ (max_capacity0 rate0 : Q) (w : World)
  : outcome AsyncRateLimiter * World :=
  let w1 := record (StoreTokens max_capacity0) w in
  let (t, w2) := clock_time w1 in
  (Returned {| rate := rate0; max_capacity := max_capacity0;
               _lock := false; _tokens := max_capacity0;
               _last_token_update := t |}, w2).

Definition _update_token_count : M unit :=
  now_ <- loop_time ;;
  last <- attr _last_token_update ;;
  let time_elapsed := now_ - last in
  r <- attr rate ;;
  let new_tokens := time_elapsed * r in
  tokens <- attr _tokens ;;
  cap <- attr max_capacity ;;
  set_tokens (Py.min (new_tokens + tokens) cap) ;;
  set_last_token_update now_.

Definition _wait_for_next_token : M unit :=
  tokens <- attr _tokens ;;
  let token_deficit := 1 - tokens in
  if Py.lt 0 token_deficit then
    r <- attr rate ;;
    wait_time <- truediv token_deficit r ;;
    asyncio_sleep wait_time
  else ret tt.

(** [self._tokens -= 1] *)
Definition debit : M unit :=
  tokens <- attr _tokens ;;
  set_tokens (tokens - 1).

(** [async with self.async_lock(lock): body] *)
Definition async_lock {A} (body : M A) : M A :=
  lock_acquire ;;
  try_finally body lock_release.

Definition acquire : M unit :=
  async_lock (
    _update_token_count ;;
    tokens <- attr _tokens ;;
    (if Py.lt tokens 1 then
       _wait_for_next_token ;;
       _update_token_count
     else ret tt) ;;
    debit).

(** [n] calls of [acquire()], one after the other. *)
Fixpoint acquire_times (n : nat) : M unit :=
  match n with
  | O => ret tt
  | S k => acquire ;; acquire_times k
  end.

(** The state in which the wait of [_wait_for_next_token] ends. *)
Definition asleep (s : State) : State :=
  {| self := self s;
     world := clock_sleep ((1 - _tokens (self s)) / rate (self s))
                (world s) |}.

End Limiter.

(** A world at time [t0] in which nothing has happened yet. *)
Definition fresh_world (t0 : Q) : World :=
  {| now := t0; reads := 0; sleeps := 0; trace := [] |}.

(** The environment in which the clock only moves while sleeping, and every
    sleep lasts as long as requested (not at all for a negative request). *)
Definition punctual : Env :=
  {| jitter := fun _ => 0; slept := fun _ d => Qmax 0 d |}.

(** The state a method leaves behind, and how it ends. *)
Definition exec {A} (m : M A) (s : State) : State := snd (m s).
Definition result {A} (m : M A) (s : State) : outcome A := fst (m s).

(** ** Vocabulary of the properties *)

(** The state in which the body of [async with] starts. *)
Definition locked (s : State) : State :=
  {| self := with_lock true (self s);
     world := record LockAcquire (world s) |}.

(** The state in which [async with] ends, the lock being held. *)
Definition released (s : State) : State :=
  {| self := with_lock false (self s);
     world := record LockRelease (world s) |}.

Definition extends (s s' : State) : Prop :=
  exists evs, trace (world s') = trace (world s) ++ evs.

(** A limiter with a free lock, given by its attributes, on a world at
    time [t] in which nothing has happened yet. *)
Definition bucket (cap r tokens last t : Q) : State :=
  {| self := {| rate := r; max_capacity := cap; _lock := false;
               _tokens := tokens; _last_token_update := last |};
     world := fresh_world t |}.

Definition same_config (s s' : State) : Prop :=
  rate (self s') = rate (self s) /\
  max_capacity (self s') = max_capacity (self s).

(** [m] leaves [rate] and [max_capacity] as they are, however it ends. *)
Definition keeps_config {A} (m : M A) : Prop :=
  forall s, same_config s (exec m s).

(** The limiter is configured as the specification asks. *)
Definition valid_config (o : AsyncRateLimiter) : Prop :=
  1 <= max_capacity o /\ 0 < rate o.

(** The state between two calls: the lock is free, the count is within the
    bucket, and the last update is not in the future. *)
Definition ready (s : State) : Prop :=
  _lock (self s) = false /\
  0 <= _tokens (self s) <= max_capacity (self s) /\
  _last_token_update (self s) <= now (world s).

(** A Python [int] counting something, as a number. *)
Definition count (n : nat) : Q := inject_Z (Z.of_nat n).

(** Between two calls at the instant [t0]: the lock is free, the bucket of
    capacity [cap] and rate [r] holds [m] tokens, the last update was made
    at [t0], which is what the clock shows, and the clock was read [c]
    times. *)
Definition idle_at (cap r m t0 : Q) (c : nat) (s : State) : Prop :=
  _lock (self s) = false /\
  rate (self s) = r /\ max_capacity (self s) = cap /\
  _tokens (self s) == m /\
  _last_token_update (self s) == t0 /\
  now (world s) == t0 /\
  reads (world s) = c.

(** The three histories a call of [acquire()] can have, [v1] and [v2]
    being what its updates store at the clock values [t1] and [t2], and [r]
    the rate. *)
Definition history_at_once (t1 v1 : Q) : list event :=
  [LockAcquire; ClockRead t1; StoreTokens v1;
   StoreTokens (v1 - 1); LockRelease].

Definition history_after_wait (r t1 v1 t2 v2 : Q) : list event :=
  [LockAcquire; ClockRead t1; StoreTokens v1; Sleep ((1 - v1) / r);
   ClockRead t2; StoreTokens v2; StoreTokens (v2 - 1); LockRelease].

Definition history_of_failure (t1 v1 : Q) : list event :=
  [LockAcquire; ClockRead t1; StoreTokens v1; LockRelease].

(** A history in which the lock is taken and released in turn, starting
    from [held], and in which the clock is read, the count is assigned and
    the caller sleeps only while the lock is held. *)
Fixpoint guarded (held : bool) (evs : list event) : bool :=
  match evs with
  | [] => negb held
  | LockAcquire :: rest => negb held && guarded true rest
  | LockRelease :: rest => held && guarded false rest
  | _ :: rest => held && guarded held rest
  end.

(** The number of sleeps in a history. *)
Fixpoint naps (evs : list event) : nat :=
  match evs with
  | [] => O
  | Sleep _ :: rest => S (naps rest)
  | _ :: rest => naps rest
  end.

(** Between two calls: the lock is free and the bucket of capacity [cap]
    and rate [r] holds [m] tokens, whatever the clock shows. *)
Definition holding (cap r m : Q) (s : State) : Prop :=
  _lock (self s) = false /\
  rate (self s) = r /\ max_capacity (self s) = cap /\
  _tokens (self s) == m.

(** An assignment to [_tokens] stores at most [cap]. *)
Definition capped (cap : Q) (e : event) : Prop :=
  match e with
  | StoreTokens v => v <= cap
  | _ => True
  end.

(** A sleep of a history is for more than nothing and at most [bound]. *)
Definition nap_within (bound : Q) (e : event) : Prop :=
  match e with
  | Sleep d => 0 < d <= bound
  | _ => True
  end.

(** Between two calls of a burst: the lock is free, the bucket of capacity
    [cap] and rate [r] holds at least [m] tokens and at most [cap], and the
    last update is not in the future. *)
Definition stocked_with (cap r m : Q) (s : State) : Prop :=
  _lock (self s) = false /\
  rate (self s) = r /\ max_capacity (self s) = cap /\
  m <= _tokens (self s) <= cap /\
  _last_token_update (self s) <= now (world s).

(** Limiters on which the properties are tried. *)
Definition refilling : State := bucket 3 1 0 0 5.
Definition short_of_a_token : State := bucket 1 (1 # 2) (1 # 4) 0 0.
Definition stocked : State := bucket 3 1 2 0 0.
Definition full : State := bucket 3 1 3 0 0.
Definition empty : State := bucket 1 (1 # 2) 0 0 0.
Definition stalled : State := bucket 1 0 0 0 0.

(** * The methods in binary64

    The same methods, statement by statement, with the numbers Python
    computes with: IEEE 754 binary64, every operation rounded to nearest
    (the kernel's primitive floats).  [max_capacity] is an [int] in the
    source; it is taken as the float of the same value, which is exact
    below [2^53], as are the comparisons and subtractions Python then makes
    between it and floats.  This module is run on concrete inputs; the
    general theorems are proved on the exact model above. *)

Module B64.

Import PrimFloat.
Local Open Scope float_scope.

(** [a < b] *)
Definition lt (a b : float) : bool := a <? b.

(** [min(a, b)]: the first argument unless the second is strictly smaller. *)
Definition min (a b : float) : float := if lt b a then b else a.

(** [a / b], true division. *)
Definition float_truediv (a b : float) : Py.exn + float :=
  if b =? 0 then inl Py.ZeroDivisionError else inr (a / b).

Inductive event : Type :=
| LockAcquire
| LockRelease
| ClockRead (t : float)
| Sleep (d : float)
| StoreTokens (v : float).

Record Env : Type := {
  jitter : nat -> float;          (* clock advance just before the k-th reading *)
  slept  : nat -> float -> float  (* real duration of the k-th sleep *)
}.

Record World : Type := {
  now    : float;
  reads  : nat;
  sleeps : nat;
  trace  : list event
}.

Definition record (e : event) (w : World) : World :=
  {| now := now w; reads := reads w; sleeps := sleeps w;
     trace := trace w ++ [e] |}.

Record AsyncRateLimiter : Type := {
  rate               : float;
  max_capacity       : float;
  _lock              : bool;
  _tokens            : float;
  _last_token_update : float
}.

Record State : Type := {
  self  : AsyncRateLimiter;
  world : World
}.

Definition M (A : Type) : Type := State -> outcome A * State.

Definition ret {A} (a : A) : M A := fun s => (Returned a, s).

Definition bind {A B} (m : M A) (k : A -> M B) : M B :=
  fun s =>
    match m s with
    | (Returned a, s') => k a s'
    | (Raised e, s') => (Raised e, s')
    | (Blocked, s') => (Blocked, s')
    end.

Definition raise {A} (e : Py.exn) : M A := fun s => (Raised e, s).

(** [try: body finally: fin] *)
Definition try_finally {A} (body : M A) (fin : M unit) : M A :=
  fun s =>
    match body s with
    | (Blocked, s') => (Blocked, s')
    | (r, s') =>
        match fin s' with
        | (Returned _, s'') => (r, s'')
        | (Raised e, s'') => (Raised e, s'')
        | (Blocked, s'') => (Blocked, s'')
        end
    end.

Declare Scope b64_scope.
Notation "x <- m ;; k" := (bind m (fun x => k))
  (at level 61, m at next level, right associativity) : b64_scope.
Notation "m ;; k" := (bind m (fun _ => k))
  (at level 61, right associativity) : b64_scope.
Local Open Scope b64_scope.

Definition on_world (f : World -> World) : M unit :=
  fun s => (Returned tt, {| self := self s; world := f (world s) |}).

Definition on_self (f : AsyncRateLimiter -> AsyncRateLimiter) : M unit :=
  fun s => (Returned tt, {| self := f (self s); world := world s |}).

Definition attr {A} (f : AsyncRateLimiter -> A) : M A :=
  fun s => (Returned (f (self s)), s).

Definition with_lock (b : bool) (o : AsyncRateLimiter) : AsyncRateLimiter :=
  {| rate := rate o; max_capacity := max_capacity o; _lock := b;
     _tokens := _tokens o; _last_token_update := _last_token_update o |}.

Definition with_tokens (v : float) (o : AsyncRateLimiter)
  : AsyncRateLimiter :=
  {| rate := rate o; max_capacity := max_capacity o; _lock := _lock o;
     _tokens := v; _last_token_update := _last_token_update o |}.

Definition with_last_token_update (t : float) (o : AsyncRateLimiter)
  : AsyncRateLimiter :=
  {| rate := rate o; max_capacity := max_capacity o; _lock := _lock o;
     _tokens := _tokens o; _last_token_update := t |}.

(** [self._tokens = v] *)
Definition set_tokens (v : float) : M unit :=
  on_self (with_tokens v) ;; on_world (record (StoreTokens v)).

(** [self._last_token_update = t] *)
Definition set_last_token_update (t : float) : M unit :=
  on_self (with_last_token_update t).

(** [a / b] inside a method *)
Definition truediv (a b : float) : M float :=
  match float_truediv a b with
  | inl e => raise e
  | inr q => ret q
  end.

Section Limiter.

Variable env : Env.

Definition tick (w : World) : float := now w + jitter env (reads w).

Definition clock_time (w : World) : float * World :=
  let t := tick w in
  (t, {| now := t; reads := S (reads w); sleeps := sleeps w;
         trace := trace w ++ [ClockRead t] |}).

Definition clock_sleep (d : float) (w : World) : World :=
  {| now := now w + slept env (sleeps w) d; reads := reads w;
     sleeps := S (sleeps w); trace := trace w ++ [Sleep d] |}.

(** [self._loop.time()] *)
Definition loop_time : M float :=
  fun s =>
    let (t, w) := clock_time (world s) in
    (Returned t, {| self := self s; world := w |}).

(** [await asyncio.sleep(d)] *)
Definition asyncio_sleep (d : float) : M unit := on_world (clock_sleep d).

(** [await loop.run_in_executor(self._pool, lock.acquire)] *)
Definition lock_acquire : M unit :=
  fun s =>
    if _lock (self s) then (Blocked, s)
    else (on_self (with_lock true) ;; on_world (record LockAcquire)) s.

(** [lock.release()] *)
Definition lock_release : M unit :=
  fun s =>
    if _lock (self s)
    then (on_self (with_lock false) ;; on_world (record LockRelease)) s
    else (Raised Py.RuntimeError, s).

(** [AsyncRateLimiter(max_capacity, rate, loop)], on the event loop [w]. *)
Definition __init__ (max_capacity0 rate0 : float) (w : World)
  : outcome AsyncRateLimiter * World :=
  let w1 := record (StoreTokens max_capacity0) w in
  let (t, w2) := clock_time w1 in
  (Returned {| rate := rate0; max_capacity := max_capacity0;
               _lock := false; _tokens := max_capacity0;
               _last_token_update := t |}, w2).

Definition _update_token_count : M unit :=
  now_ <- loop_time ;;
  last <- attr _last_token_update ;;
  let time_elapsed := now_ - last in
  r <- attr rate ;;
  let new_tokens := time_elapsed * r in
  tokens <- attr _tokens ;;
  cap <- attr max_capacity ;;
  set_tokens (min (new_tokens + tokens) cap) ;;
  set_last_token_update now_.

Definition _wait_for_next_token : M unit :=
  tokens <- attr _tokens ;;
  let token_deficit := 1 - tokens in
  if lt 0 token_deficit then
    r <- attr rate ;;
    wait_time <- truediv token_deficit r ;;
    asyncio_sleep wait_time
  else ret tt.

(** [self._tokens -= 1] *)
Definition debit : M unit :=
  tokens <- attr _tokens ;;
  set_tokens (tokens - 1).

(** [async with self.async_lock(lock): body] *)
Definition async_lock {A} (body : M A) : M A :=
  lock_acquire ;;
  try_finally body lock_release.

Definition acquire : M unit :=
  async_lock (
    _update_token_count ;;
    tokens <- attr _tokens ;;
    (if lt tokens 1 then
       _wait_for_next_token ;;
       _update_token_count
     else ret tt) ;;
    debit).

End Limiter.

(** A world at time [t0] in which nothing has happened yet. *)
Definition fresh_world (t0 : float) : World :=
  {| now := t0; reads := O; sleeps := O; trace := [] |}.

(** The clock moves only while sleeping, and every sleep lasts exactly as
    long as requested. *)
Definition punctual : Env :=
  {| jitter := fun _ => 0; slept := fun _ d => if 0 <? d then d else 0 |}.

(** As [punctual], but three quarters of a second pass before the third
    reading of the clock (the first reading of a second call). *)
Definition second_call_late : Env :=
  {| jitter := fun k => if Nat.eqb k 2 then 0.75 else 0;
     slept := fun _ d => if 0 <? d then d else 0 |}.

End B64.

(** ** Facts on Python's comparison, [min] and division *)

Module PyFacts.

Lemma lt_true (a b : Q) : Py.lt a b = true <-> a < b.
Proof.
  unfold Py.lt. rewrite Qlt_alt.
  destruct (a ?= b); split; intro H; congruence.
Qed.

Lemma lt_false (a b : Q) : Py.lt a b = false <-> b <= a.
Proof.
  split; intro H.
  - apply Qnot_lt_le. intro L. apply lt_true in L. congruence.
  - destruct (Py.lt a b) eqn:E; trivial.
    apply lt_true in E. exfalso. exact (Qlt_not_le _ _ E H).
Qed.

Lemma lt_cases (a b : Q) :
  (Py.lt a b = true /\ a < b) \/ (Py.lt a b = false /\ b <= a).
Proof.
  destruct (Py.lt a b) eqn:E.
  - left. split; trivial. now apply lt_true.
  - right. split; trivial. now apply lt_false.
Qed.

Lemma min_Qmin (a b : Q) : Py.min a b = Qmin a b.
Proof.
  unfold Py.min, Py.lt, Qmin, GenericMinMax.gmin.
  rewrite <- (Qcompare_antisym a b).
  destruct (a ?= b); reflexivity.
Qed.

Lemma min_le_l (a b : Q) : Py.min a b <= a.
Proof. rewrite min_Qmin. apply Q.le_min_l. Qed.

Lemma min_le_r (a b : Q) : Py.min a b <= b.
Proof. rewrite min_Qmin. apply Q.le_min_r. Qed.

Lemma min_glb (a b c : Q) : c <= a -> c <= b -> c <= Py.min a b.
Proof. rewrite min_Qmin. apply Q.min_glb. Qed.

Lemma min_l (a b : Q) : a <= b -> Py.min a b == a.
Proof. rewrite min_Qmin. apply Q.min_l. Qed.

Lemma truediv_nonzero (a b : Q) :
  ~ b == 0 -> Py.truediv a b = inr (a / b).
Proof.
  intro H. unfold Py.truediv.
  destruct (Qeq_bool b 0) eqn:E; trivial.
  apply Qeq_bool_iff in E. contradiction.
Qed.

Lemma truediv_zero (a b : Q) :
  b == 0 -> Py.truediv a b = inl Py.ZeroDivisionError.
Proof.
  intro H. unfold Py.truediv.
  apply Qeq_bool_iff in H. now rewrite H.
Qed.

End PyFacts.

(** ** Equations of the methods *)

Section Equations.

Variable env : Env.

(** One run of [_update_token_count]: it always returns, and this is the
    state it leaves. *)
Lemma _update_token_count_run (s : State) :
  let t := tick env (world s) in
  let v := Py.min ((t - _last_token_update (self s)) * rate (self s)
                   + _tokens (self s)) (max_capacity (self s)) in
  _update_token_count env s =
  (Returned tt,
   {| self := {| rate := rate (self s);
                 max_capacity := max_capacity (self s);
                 _lock := _lock (self s);
                 _tokens := v;
                 _last_token_update := t |};
      world := {| now := t; reads := S (reads (world s));
                  sleeps := sleeps (world s);
                  trace := (trace (world s) ++ [ClockRead t])
                             ++ [StoreTokens v] |} |}).
Proof. reflexivity. Qed.

Lemma _wait_for_next_token_enough (s : State) :
  1 <= _tokens (self s) -> _wait_for_next_token env s = (Returned tt, s).
Proof.
  intro H. unfold _wait_for_next_token, bind, attr.
  assert (E : Py.lt 0 (1 - _tokens (self s)) = false)
    by (apply PyFacts.lt_false; lra).
  now rewrite E.
Qed.

Lemma _wait_for_next_token_sleeps (s : State) :
  _tokens (self s) < 1 -> ~ rate (self s) == 0 ->
  _wait_for_next_token env s = (Returned tt, asleep env s).
Proof.
  intros H R. unfold _wait_for_next_token, bind, attr, truediv.
  assert (E : Py.lt 0 (1 - _tokens (self s)) = true)
    by (apply PyFacts.lt_true; lra).
  rewrite E, (PyFacts.truediv_nonzero _ _ R). reflexivity.
Qed.

Lemma _wait_for_next_token_zero_rate (s : State) :
  _tokens (self s) < 1 -> rate (self s) == 0 ->
  _wait_for_next_token env s = (Raised Py.ZeroDivisionError, s).
Proof.
  intros H R. unfold _wait_for_next_token, bind, attr, truediv.
  assert (E : Py.lt 0 (1 - _tokens (self s)) = true)
    by (apply PyFacts.lt_true; lra).
  rewrite E, (PyFacts.truediv_zero _ _ R). reflexivity.
Qed.

Lemma lock_release_held (s : State) :
  _lock (self s) = true -> lock_release s = (Returned tt, released s).
Proof. intro H. unfold lock_release. now rewrite H. Qed.

Lemma bind_run {A B} (m : M A) (k : A -> M B) (s s' : State) (a : A) :
  m s = (Returned a, s') -> bind m k s = k a s'.
Proof. intro H. unfold bind. now rewrite H. Qed.

Lemma bind_raised {A B} (m : M A) (k : A -> M B) (s s' : State) e :
  m s = (Raised e, s') -> bind m k s = (Raised e, s').
Proof. intro H. unfold bind. now rewrite H. Qed.

Lemma _update_token_count_exec (s : State) :
  _update_token_count env s
  = (Returned tt, exec (_update_token_count env) s).
Proof. reflexivity. Qed.

Lemma debit_exec (s : State) : debit s = (Returned tt, exec debit s).
Proof. reflexivity. Qed.

(** [_wait_for_next_token] assigns to no attribute, however it ends. *)
Lemma _wait_for_next_token_self (s : State) :
  self (exec (_wait_for_next_token env) s) = self s.
Proof.
  unfold exec, _wait_for_next_token, bind, attr, truediv.
  destruct (Py.lt 0 (1 - _tokens (self s))); trivial.
  destruct (Py.truediv _ _); reflexivity.
Qed.

Lemma _wait_for_next_token_not_blocked (s : State) :
  result (_wait_for_next_token env) s <> Blocked.
Proof.
  unfold result, _wait_for_next_token, bind, attr, truediv.
  destruct (Py.lt 0 (1 - _tokens (self s))); try discriminate.
  destruct (Py.truediv _ _); discriminate.
Qed.

(** [acquire] on a free lock, statement by statement. *)
Lemma acquire_run (s : State) :
  _lock (self s) = false ->
  let s1 := exec (_update_token_count env) (locked s) in
  acquire env s =
  if Py.lt (_tokens (self s1)) 1 then
    match _wait_for_next_token env s1 with
    | (Returned _, s2) =>
        let s3 := exec (_update_token_count env) s2 in
        (Returned tt, released (exec debit s3))
    | (Raised e, s2) => (Raised e, released s2)
    | (Blocked, s2) => (Blocked, s2)
    end
  else (Returned tt, released (exec debit s1)).
Proof.
  intros F s1.
  unfold acquire, async_lock.
  rewrite (bind_run _ _ s (locked s) tt)
    by (unfold lock_acquire; rewrite F; reflexivity).
  unfold try_finally.
  rewrite (bind_run _ _ (locked s) s1 tt) by reflexivity.
  rewrite (bind_run _ _ s1 s1 (_tokens (self s1))) by reflexivity.
  destruct (Py.lt (_tokens (self s1)) 1).
  - pose proof (_wait_for_next_token_self s1) as W.
    unfold exec in W.
    destruct (_wait_for_next_token env s1) as [[[]|e|] s2] eqn:E;
      simpl in W.
    + rewrite (bind_run _ _ s1 (exec (_update_token_count env) s2) tt)
        by (apply bind_run with (1 := E)).
      rewrite debit_exec, lock_release_held; [reflexivity|].
      simpl. now rewrite W.
    + rewrite (bind_raised _ _ s1 s2 e)
        by (apply bind_raised with (1 := E)).
      rewrite lock_release_held; [reflexivity|].
      now rewrite W.
    + exfalso. apply (_wait_for_next_token_not_blocked s1).
      unfold result. now rewrite E.
  - rewrite (bind_run _ _ s1 s1 tt) by reflexivity.
    rewrite debit_exec, lock_release_held; reflexivity.
Qed.

(** With a zero rate the division of [_wait_for_next_token] raises; the
    [finally] of [async_lock] still releases the lock, and nothing is
    debited. *)
Lemma acquire_zero_rate_raises (s : State) :
  _lock (self s) = false -> rate (self s) == 0 ->
  let s1 := exec (_update_token_count env) (locked s) in
  _tokens (self s1) < 1 ->
  acquire env s = (Raised Py.ZeroDivisionError, released s1).
Proof.
  intros F R s1 T.
  rewrite (acquire_run s F). fold s1.
  assert (E : Py.lt (_tokens (self s1)) 1 = true)
    by now apply PyFacts.lt_true.
  rewrite E, (_wait_for_next_token_zero_rate s1 T R). reflexivity.
Qed.

(** ** Histories only grow *)

Lemma extends_refl (s : State) : extends s s.
Proof. exists []. now rewrite app_nil_r. Qed.

Lemma extends_trans (s1 s2 s3 : State) :
  extends s1 s2 -> extends s2 s3 -> extends s1 s3.
Proof.
  intros [e1 H1] [e2 H2]. exists (e1 ++ e2).
  now rewrite H2, H1, app_assoc.
Qed.

Lemma _update_token_count_extends (s : State) :
  extends s (exec (_update_token_count env) s).
Proof.
  unfold exec. rewrite _update_token_count_run. simpl.
  eexists. rewrite <- app_assoc. reflexivity.
Qed.

Lemma debit_extends (s : State) : extends s (exec debit s).
Proof. eexists. reflexivity. Qed.

Lemma released_extends (s : State) : extends s (released s).
Proof. eexists. reflexivity. Qed.

Lemma _wait_for_next_token_extends (s : State) :
  extends s (exec (_wait_for_next_token env) s).
Proof.
  unfold exec, _wait_for_next_token, bind, attr, truediv.
  destruct (Py.lt 0 (1 - _tokens (self s))); [|apply extends_refl].
  destruct (Py.truediv _ _); [apply extends_refl|].
  eexists. reflexivity.
Qed.

(** Whatever [acquire] does after its first update is appended to the
    history of that update. *)
Lemma acquire_extends_first_update (s : State) :
  _lock (self s) = false ->
  extends (exec (_update_token_count env) (locked s))
          (exec (acquire env) s).
Proof.
  intro F. unfold exec at 2. rewrite (acquire_run s F).
  set (s1 := exec (_update_token_count env) (locked s)).
  destruct (Py.lt (_tokens (self s1)) 1).
  - pose proof (_wait_for_next_token_extends s1) as W. unfold exec in W.
    destruct (_wait_for_next_token env s1) as [[[]|e|] s2]; simpl in *.
    + eapply extends_trans; [exact W|].
      eapply extends_trans; [apply _update_token_count_extends|].
      eapply extends_trans; [apply debit_extends|].
      apply released_extends.
    + eapply extends_trans; [exact W|]. apply released_extends.
    + exact W.
  - simpl. eapply extends_trans; [apply debit_extends|].
    apply released_extends.
Qed.

End Equations.

(** * Properties *)

(** ** Refill *)

(** C2: [_update_token_count] always returns; it sets the token count to
    [min(tokens + (now - lastUpdate) * rate, maxCapacity)], where [now] is
    the clock value it reads, and sets [lastUpdate] to [now].  Consequently,
    when the clock reads [lastUpdate + D] (an idle gap of [D]), the count it
    leaves is [min(maxCapacity, tokens + D * rate)], and this is the first
    value that the next [acquire()] stores, before any debit. *)
Theorem update_token_count_refills (env : Env) (s : State) (D : Q) :
  let o := self s in
  let t := tick env (world s) in
  t == _last_token_update o + D ->
  exists s',
    _update_token_count env s = (Returned tt, s') /\
    _tokens (self s')
      == Qmin (_tokens o + (t - _last_token_update o) * rate o)
              (max_capacity o) /\
    _last_token_update (self s') = t /\
    _tokens (self s') == Qmin (max_capacity o) (_tokens o + D * rate o) /\
    (_lock o = false ->
     exists v rest,
       v == Qmin (max_capacity o) (_tokens o + D * rate o) /\
       trace (world (exec (acquire env) s))
       = trace (world s)
           ++ LockAcquire :: ClockRead t :: StoreTokens v :: rest).
Proof.
  intros o t HD.
  assert (V : forall a a' b c, a == a' ->
            Py.min (a + c) b == Qmin b (c + a')).
  { intros a a' b c Ha. rewrite PyFacts.min_Qmin, Q.min_comm.
    apply Q.min_compat; [reflexivity|]. rewrite Ha. apply Qplus_comm. }
  assert (G : (t - _last_token_update o) * rate o == D * rate o).
  { apply Qmult_comp; [|reflexivity]. rewrite HD. ring. }
  exists (exec (_update_token_count env) s).
  split; [reflexivity|].
  unfold exec at 1 2 3. rewrite _update_token_count_run. simpl.
  fold o. fold t.
  split.
  { rewrite PyFacts.min_Qmin. apply Q.min_compat; [apply Qplus_comm|].
    reflexivity. }
  split; [reflexivity|].
  split.
  { apply V, G. }
  intro F.
  destruct (acquire_extends_first_update env s F) as [rest R].
  set (s1 := exec (_update_token_count env) (locked s)) in R.
  exists (_tokens (self s1)), rest.
  split.
  - unfold s1, exec. rewrite _update_token_count_run. simpl.
    fold o. change (tick env (record LockAcquire (world s))) with t.
    apply V, G.
  - rewrite R. unfold s1, exec. rewrite _update_token_count_run. simpl.
    rewrite <- !app_assoc. reflexivity.
Qed.

Lemma update_token_count_refills_witness :
  tick punctual (world refilling)
    == _last_token_update (self refilling) + 5 /\
  exists s',
    _update_token_count punctual refilling = (Returned tt, s') /\
    _tokens (self s') == 3 /\ _last_token_update (self s') == 5.
Proof.
  assert (H : tick punctual (world refilling)
              == _last_token_update (self refilling) + 5)
    by reflexivity.
  split; [exact H|].
  destruct (update_token_count_refills punctual refilling 5 H)
    as (s' & E & _ & L & T & _).
  exists s'. split; [exact E|]. split.
  - rewrite T. reflexivity.
  - rewrite L. reflexivity.
Defined.

(** ** Construction *)

Lemma init_built (env : Env) (cap r : Q) (w : World) :
  exists o w',
    __init__ env cap r w = (Returned o, w') /\
    _tokens o = cap /\
    _last_token_update o = tick env w /\
    now w' = tick env w /\
    rate o = r /\ max_capacity o = cap /\ _lock o = false /\
    trace w' = trace w ++ [StoreTokens cap; ClockRead (tick env w)].
Proof.
  eexists. eexists. split; [reflexivity|]. simpl.
  rewrite <- app_assoc. repeat split.
Qed.

(** C3, as the code has it: the constructor checks nothing.  For all
    parameters, also with [rate <= 0] or [maxCapacity < 1], construction
    returns a limiter with [tokens = maxCapacity], [lastUpdate] the clock
    value read, the given [rate] and [maxCapacity], and a free lock. *)
Theorem init_always_succeeds (env : Env) (cap r : Q) (w : World) :
  exists o w',
    __init__ env cap r w = (Returned o, w') /\
    _tokens o = cap /\
    _last_token_update o = tick env w /\
    now w' = tick env w /\
    rate o = r /\ max_capacity o = cap /\ _lock o = false.
Proof.
  eexists. eexists. split; [reflexivity|]. simpl. repeat split.
Qed.

(** C3 fails as stated: with [maxCapacity = 0 < 1] and [rate = -1 <= 0]
    construction does not fail with [InvalidConfiguration], it returns a
    limiter. *)
Lemma init_accepts_invalid_configuration :
  (0 < 1 /\ -1 <= 0) /\
  fst (__init__ punctual 0 (-1) (fresh_world 0))
    <> Raised Py.InvalidConfiguration /\
  exists o w', __init__ punctual 0 (-1) (fresh_world 0) = (Returned o, w').
Proof.
  split; [split; [reflexivity | discriminate]|].
  split; [discriminate|].
  eexists. eexists. reflexivity.
Qed.

(** ** Waiting *)

(** C4: in a state with [tokens < 1] (and a rate that can divide),
    [_wait_for_next_token] requests one sleep, of exactly
    [(1 - tokens) / rate], and returns; it assigns to no attribute, so
    [tokens] and [lastUpdate] are unchanged, and it reads no clock. *)
Theorem wait_for_next_token_sleeps_deficit (env : Env) (s : State) :
  _tokens (self s) < 1 ->
  ~ rate (self s) == 0 ->
  let d := (1 - _tokens (self s)) / rate (self s) in
  exists s',
    _wait_for_next_token env s = (Returned tt, s') /\
    self s' = self s /\
    trace (world s') = trace (world s) ++ [Sleep d] /\
    now (world s') = now (world s) + slept env (sleeps (world s)) d /\
    reads (world s') = reads (world s).
Proof.
  intros T R d.
  rewrite (_wait_for_next_token_sleeps env s T R).
  eexists. split; [reflexivity|]. simpl. repeat split.
Qed.

Lemma wait_for_next_token_sleeps_deficit_witness :
  (_tokens (self short_of_a_token) < 1 /\
   ~ rate (self short_of_a_token) == 0) /\
  exists s',
    _wait_for_next_token punctual short_of_a_token = (Returned tt, s') /\
    self s' = self short_of_a_token /\
    trace (world s') = [Sleep ((1 - (1 # 4)) / (1 # 2))].
Proof.
  assert (T : _tokens (self short_of_a_token) < 1) by reflexivity.
  assert (R : ~ rate (self short_of_a_token) == 0) by discriminate.
  split; [split; assumption|].
  destruct (wait_for_next_token_sleeps_deficit punctual short_of_a_token
              T R)
    as (s' & E & S & Tr & _).
  exists s'. repeat split; assumption.
Defined.

(** C10: in a state with [tokens >= 1], [_wait_for_next_token] returns at
    once and leaves the whole state as it is: no attribute is assigned and
    nothing is added to the history, so no sleep is requested and the clock
    is not touched. *)
Theorem wait_for_next_token_skips (env : Env) (s : State) :
  1 <= _tokens (self s) ->
  _wait_for_next_token env s = (Returned tt, s) /\
  trace (world (exec (_wait_for_next_token env) s)) = trace (world s) /\
  sleeps (world (exec (_wait_for_next_token env) s)) = sleeps (world s).
Proof.
  intro H. pose proof (_wait_for_next_token_enough env s H) as E.
  unfold exec. rewrite E. repeat split.
Qed.

Lemma wait_for_next_token_skips_witness :
  1 <= _tokens (self stocked) /\
  _wait_for_next_token punctual stocked = (Returned tt, stocked).
Proof.
  assert (H : 1 <= _tokens (self stocked)) by discriminate.
  split; [exact H|].
  exact (proj1 (wait_for_next_token_skips punctual stocked H)).
Defined.

(** ** The debit *)

(** C5: a call of [acquire()] that returns has debited exactly one token.
    Its whole history is one of two.  Either the update stores [v1 >= 1]
    and the only other assignment of the call is the debit, which stores
    [v1 - 1]; or the update stores [v1 < 1], the call sleeps, the second
    update stores [v2], and the only other assignment of the call is the
    debit, which stores [v2 - 1].  In both the count on release is the
    value stored by the last [_update_token_count] minus 1, and nothing is
    subtracted anywhere else. *)
Theorem acquire_debits_exactly_one (env : Env) (s s' : State) :
  acquire env s = (Returned tt, s') ->
  let s1 := exec (_update_token_count env) (locked s) in
  let t1 := tick env (world s) in
  let v1 := _tokens (self s1) in
  let s3 := exec (_update_token_count env) (asleep env s1) in
  let t2 := tick env (world (asleep env s1)) in
  let v2 := _tokens (self s3) in
  (1 <= v1 /\
   _tokens (self s') = v1 - 1 /\
   trace (world s') = trace (world s) ++ history_at_once t1 v1)
  \/
  (v1 < 1 /\
   _tokens (self s') = v2 - 1 /\
   trace (world s')
   = trace (world s) ++ history_after_wait (rate (self s)) t1 v1 t2 v2).
Proof.
  intros A s1 t1 v1 s3 t2 v2.
  destruct (_lock (self s)) eqn:F.
  { unfold acquire, async_lock, bind, lock_acquire in A.
    rewrite F in A. discriminate. }
  rewrite (acquire_run env s F) in A. fold s1 in A. fold v1 in A.
  destruct (PyFacts.lt_cases v1 1) as [[E T]|[E T]]; rewrite E in A.
  - right. split; [exact T|].
    destruct (Qeq_dec (rate (self s)) 0) as [R|R].
    { rewrite (_wait_for_next_token_zero_rate env s1 T R) in A.
      discriminate. }
    rewrite (_wait_for_next_token_sleeps env s1 T R) in A.
    fold s3 in A. injection A as <-.
    split; [reflexivity|].
    change (trace (world (released (exec debit s3))))
      with ((((((((trace (world s) ++ [LockAcquire]) ++ [ClockRead t1])
              ++ [StoreTokens v1])
              ++ [Sleep ((1 - v1) / rate (self s))])
              ++ [ClockRead t2])
              ++ [StoreTokens v2])
              ++ [StoreTokens (v2 - 1)])
              ++ [LockRelease]).
    unfold history_after_wait. rewrite <- !app_assoc. reflexivity.
  - left. split; [exact T|]. injection A as <-.
    split; [reflexivity|].
    change (trace (world (released (exec debit s1))))
      with (((((trace (world s) ++ [LockAcquire]) ++ [ClockRead t1])
              ++ [StoreTokens v1]) ++ [StoreTokens (v1 - 1)])
              ++ [LockRelease]).
    unfold history_at_once. rewrite <- !app_assoc. reflexivity.
Qed.

Lemma acquire_debits_exactly_one_witness :
  acquire punctual empty = (Returned tt, exec (acquire punctual) empty) /\
  exists t1 v1 t2 v2,
    v1 < 1 /\
    _tokens (self (exec (acquire punctual) empty)) = v2 - 1 /\
    trace (world (exec (acquire punctual) empty))
    = trace (world empty) ++ history_after_wait (1 # 2) t1 v1 t2 v2.
Proof.
  assert (A : acquire punctual empty
              = (Returned tt, exec (acquire punctual) empty))
    by (vm_compute; reflexivity).
  split; [exact A|].
  destruct (acquire_debits_exactly_one punctual empty _ A)
    as [(T & _)|(T & Tk & Tr)].
  - exfalso. revert T. vm_compute. intro T. apply T. reflexivity.
  - do 4 eexists. split; [exact T|]. split; [exact Tk | exact Tr].
Defined.

(** ** The configuration is read-only *)

Section Config.

Variable env : Env.

Lemma keeps_ret {A} (a : A) : keeps_config (ret a).
Proof. intro s. split; reflexivity. Qed.

Lemma keeps_raise {A} (e : Py.exn) : keeps_config (@raise A e).
Proof. intro s. split; reflexivity. Qed.

Lemma keeps_attr {A} (f : AsyncRateLimiter -> A) : keeps_config (attr f).
Proof. intro s. split; reflexivity. Qed.

Lemma keeps_on_world (f : World -> World) : keeps_config (on_world f).
Proof. intro s. split; reflexivity. Qed.

Lemma keeps_bind {A B} (m : M A) (k : A -> M B) :
  keeps_config m -> (forall a, keeps_config (k a)) ->
  keeps_config (bind m k).
Proof.
  intros Hm Hk s. specialize (Hm s). unfold exec, bind in *.
  destruct (m s) as [[a|e|] s1]; simpl in Hm; trivial.
  destruct (Hk a s1) as [R C]. destruct Hm as [R' C'].
  unfold exec in R, C. split; congruence.
Qed.

Lemma keeps_try_finally {A} (body : M A) (fin : M unit) :
  keeps_config body -> keeps_config fin ->
  keeps_config (try_finally body fin).
Proof.
  intros Hb Hf s. specialize (Hb s). unfold exec, try_finally in *.
  destruct (body s) as [r s1]; simpl in Hb.
  specialize (Hf s1). unfold exec in Hf.
  destruct Hb as [R C].
  destruct r; trivial; try (split; assumption);
    destruct (fin s1) as [[a'|e'|] s2]; simpl in *;
    destruct Hf as [R' C']; split; congruence.
Qed.

Lemma keeps_if {A} (b : bool) (m1 m2 : M A) :
  keeps_config m1 -> keeps_config m2 ->
  keeps_config (if b then m1 else m2).
Proof. now destruct b. Qed.

Lemma keeps_set_tokens (v : Q) : keeps_config (set_tokens v).
Proof. intro s. split; reflexivity. Qed.

Lemma keeps_set_last_token_update (t : Q) :
  keeps_config (set_last_token_update t).
Proof. intro s. split; reflexivity. Qed.

Lemma keeps_truediv (a b : Q) : keeps_config (truediv a b).
Proof.
  intro s. unfold exec, truediv.
  destruct (Py.truediv a b); split; reflexivity.
Qed.

Lemma keeps_loop_time : keeps_config (loop_time env).
Proof. intro s. split; reflexivity. Qed.

Lemma keeps_asyncio_sleep (d : Q) : keeps_config (asyncio_sleep env d).
Proof. intro s. split; reflexivity. Qed.

Lemma keeps_lock_acquire : keeps_config lock_acquire.
Proof.
  intro s. unfold exec, lock_acquire.
  destruct (_lock (self s)); split; reflexivity.
Qed.

Lemma keeps_lock_release : keeps_config lock_release.
Proof.
  intro s. unfold exec, lock_release.
  destruct (_lock (self s)); split; reflexivity.
Qed.

Create HintDb config.

#[local] Hint Resolve keeps_ret keeps_raise keeps_attr keeps_on_world
  keeps_set_tokens keeps_set_last_token_update keeps_truediv
  keeps_loop_time keeps_asyncio_sleep keeps_lock_acquire
  keeps_lock_release : config.

Ltac keeps :=
  repeat first
    [ progress auto with config
    | apply keeps_bind; [|intro]
    | apply keeps_try_finally
    | apply keeps_if ].

Lemma keeps__update_token_count : keeps_config (_update_token_count env).
Proof. unfold _update_token_count. keeps. Qed.

Lemma keeps__wait_for_next_token :
  keeps_config (_wait_for_next_token env).
Proof. unfold _wait_for_next_token. keeps. Qed.

Lemma keeps_debit : keeps_config debit.
Proof using. intro s. split; reflexivity. Qed.

Lemma keeps_async_lock {A} (body : M A) :
  keeps_config body -> keeps_config (async_lock body).
Proof. intro H. unfold async_lock. keeps. Qed.

Lemma keeps_acquire : keeps_config (acquire env).
Proof.
  unfold acquire. apply keeps_async_lock.
  pose proof keeps__update_token_count.
  pose proof keeps__wait_for_next_token.
  pose proof keeps_debit.
  keeps.
Qed.

Lemma keeps_acquire_times (n : nat) : keeps_config (acquire_times env n).
Proof.
  induction n as [|n IH]; simpl.
  - apply keeps_ret.
  - apply keeps_bind; [apply keeps_acquire | intro; exact IH].
Qed.

End Config.

(** C9: [rate] and [max_capacity] are what the constructor was given, and
    they are left unchanged by [_update_token_count], by
    [_wait_for_next_token], by the debit, by [acquire()] and by any number
    of calls of [acquire()], however these end (also when they raise). *)
Theorem config_is_fixed (env : Env) :
  (forall cap r w,
     exists o w',
       __init__ env cap r w = (Returned o, w') /\
       rate o = r /\ max_capacity o = cap) /\
  keeps_config (_update_token_count env) /\
  keeps_config (_wait_for_next_token env) /\
  keeps_config debit /\
  keeps_config (acquire env) /\
  forall n, keeps_config (acquire_times env n).
Proof.
  split.
  { intros cap r w. eexists. eexists. split; [reflexivity|].
    split; reflexivity. }
  split; [apply keeps__update_token_count|].
  split; [apply keeps__wait_for_next_token|].
  split; [apply keeps_debit|].
  split; [apply keeps_acquire|].
  intro n. apply keeps_acquire_times.
Qed.

(** ** The clock and the update *)

Lemma punctual_monotonic : monotonic_clock punctual.
Proof.
  split; simpl; intros.
  - apply Qle_refl.
  - apply Q.le_max_l.
Qed.

Section Bounds.

Variable env : Env.
Hypothesis clock_ok : monotonic_clock env.

Lemma tick_ge_now (w : World) : now w <= tick env w.
Proof.
  unfold tick. destruct clock_ok as [J _]. specialize (J (reads w)). lra.
Qed.

(** The count after an update that comes no earlier than the last one. *)
Lemma _update_token_count_bounds (s : State) :
  let s' := exec (_update_token_count env) s in
  0 <= rate (self s) -> 0 <= max_capacity (self s) ->
  0 <= _tokens (self s) ->
  _last_token_update (self s) <= now (world s) ->
  0 <= _tokens (self s') <= max_capacity (self s).
Proof.
  intros s' R C T L. unfold s', exec.
  rewrite _update_token_count_run. simpl.
  split; [|apply PyFacts.min_le_r].
  apply PyFacts.min_glb; [|exact C].
  pose proof (tick_ge_now (world s)) as N.
  assert (0 <= (tick env (world s) - _last_token_update (self s))
               * rate (self s))
    by (apply Qmult_le_0_compat; lra).
  lra.
Qed.

End Bounds.

(** ** Bursts *)

Lemma count_S (k : nat) : count (S k) == count k + 1.
Proof.
  unfold count. rewrite Nat2Z.inj_succ, <- Z.add_1_r, inject_Z_plus.
  reflexivity.
Qed.

Lemma count_nonneg (k : nat) : 0 <= count k.
Proof.
  unfold count. change 0 with (inject_Z 0).
  rewrite <- Zle_Qle. apply Nat2Z.is_nonneg.
Qed.

Lemma count_le (k n : nat) : (k <= n)%nat -> count k <= count n.
Proof.
  intro H. unfold count. rewrite <- Zle_Qle. now apply Nat2Z.inj_le.
Qed.

Lemma count_lt (k n : nat) : (k < n)%nat -> 1 <= count n - count k.
Proof.
  intro H. pose proof (count_le (S k) n H) as L.
  rewrite count_S in L. lra.
Qed.

Section Burst.

Variable env : Env.
Variables cap r t0 : Q.

(** The count after an update made at the instant of the last one. *)
Lemma _update_token_count_same_instant (m : Q) (c : nat) (s : State) :
  jitter env c == 0 -> idle_at cap r m t0 c (s) -> m <= cap ->
  let s1 := exec (_update_token_count env) (locked s) in
  _tokens (self s1) == m /\ tick env (world s) == t0.
Proof.
  intros J (F & Rt & Cp & Tk & Lu & Nw & Rd) Le s1.
  assert (T : tick env (world s) == t0)
    by (unfold tick; rewrite Rd, J, Nw; ring).
  split; [|exact T].
  unfold s1, exec. rewrite _update_token_count_run. simpl.
  change (tick env (record LockAcquire (world s)))
    with (tick env (world s)).
  assert (E : (tick env (world s) - _last_token_update (self s))
              * rate (self s) + _tokens (self s) == m)
    by (rewrite T, Lu, Tk; ring).
  rewrite PyFacts.min_l; [exact E|].
  rewrite E, Cp. exact Le.
Qed.

(** A call that finds a token. *)
Lemma acquire_immediate (m : Q) (c : nat) (s : State) :
  jitter env c == 0 -> idle_at cap r m t0 c s -> 1 <= m -> m <= cap ->
  exists s' t v,
    acquire env s = (Returned tt, s') /\
    idle_at cap r (m - 1) t0 (S c) s' /\
    v == m /\ t == t0 /\
    trace (world s')
    = trace (world s)
        ++ [LockAcquire; ClockRead t; StoreTokens v;
            StoreTokens (v - 1); LockRelease].
Proof.
  intros J I M Le.
  destruct (_update_token_count_same_instant m c s J I Le) as [V T].
  destruct I as (F & Rt & Cp & Tk & Lu & Nw & Rd).
  rewrite (acquire_run env s F).
  set (s1 := exec (_update_token_count env) (locked s)) in *.
  assert (E : Py.lt (_tokens (self s1)) 1 = false)
    by (apply PyFacts.lt_false; rewrite V; exact M).
  rewrite E.
  exists (released (exec debit s1)), (tick env (world s)),
    (_tokens (self s1)).
  split; [reflexivity|].
  split; [|split; [exact V|split; [exact T|]]].
  - split; [reflexivity|]. split; [exact Rt|]. split; [exact Cp|].
    split; [|split; [exact T|split; [exact T|]]].
    + change (_tokens (self (released (exec debit s1))))
        with (_tokens (self s1) - 1).
      rewrite V. reflexivity.
    + change (reads (world (released (exec debit s1))))
        with (S (reads (world s))).
      now rewrite Rd.
  - change (trace (world (released (exec debit s1))))
      with (((((trace (world s) ++ [LockAcquire])
              ++ [ClockRead (tick env (world s))])
              ++ [StoreTokens (_tokens (self s1))])
              ++ [StoreTokens (_tokens (self s1) - 1)])
              ++ [LockRelease]).
    rewrite <- !app_assoc. reflexivity.
Qed.

(** [k] calls in a row, each finding a token. *)
Lemma acquire_times_immediate (k : nat) :
  forall (m : Q) (c : nat) (s : State),
  (forall j, (c <= j < c + k)%nat -> jitter env j == 0) ->
  idle_at cap r m t0 c s -> count k <= m -> m <= cap ->
  exists s',
    acquire_times env k s = (Returned tt, s') /\
    idle_at cap r (m - count k) t0 (c + k) s'.
Proof.
  induction k as [|k IH]; intros m c s J I M Le.
  - exists s. split; [reflexivity|].
    destruct I as (F & Rt & Cp & Tk & Lu & Nw & Rd).
    repeat (split; trivial).
    + rewrite Tk. unfold count. simpl. ring.
    + now rewrite Nat.add_0_r.
  - rewrite count_S in M. pose proof (count_nonneg k) as K0.
    destruct (acquire_immediate m c s) as (s1 & t & v & A & I1 & _);
      trivial; try lra.
    { apply J. lia. }
    destruct (IH (m - 1) (S c) s1) as (s2 & A2 & I2); trivial; try lra.
    { intros j Hj. apply J. lia. }
    exists s2. split.
    + simpl. now rewrite (bind_run _ _ _ _ _ A).
    + destruct I2 as (F & Rt & Cp & Tk & Lu & Nw & Rd).
      repeat (split; trivial).
      * rewrite Tk, count_S. ring.
      * rewrite Rd. lia.
Qed.

(** A call that finds the bucket empty. *)
Lemma acquire_empty (c : nat) (s : State) :
  ~ r == 0 -> 0 <= cap ->
  jitter env c == 0 -> idle_at cap r 0 t0 c s ->
  exists s' t v d t2 v2,
    acquire env s = (Returned tt, s') /\
    v < 1 /\ d == 1 / r /\ t == t0 /\
    trace (world s')
    = trace (world s)
        ++ [LockAcquire; ClockRead t; StoreTokens v; Sleep d;
            ClockRead t2; StoreTokens v2;
            StoreTokens (v2 - 1); LockRelease].
Proof.
  intros R C J I.
  destruct (_update_token_count_same_instant 0 c s J I C) as [V T].
  destruct I as (F & Rt & Cp & Tk & Lu & Nw & Rd).
  rewrite (acquire_run env s F).
  set (s1 := exec (_update_token_count env) (locked s)) in *.
  assert (T1 : _tokens (self s1) < 1) by (rewrite V; reflexivity).
  assert (E : Py.lt (_tokens (self s1)) 1 = true)
    by (apply PyFacts.lt_true; exact T1).
  assert (R1 : ~ rate (self s1) == 0)
    by (change (rate (self s1)) with (rate (self s)); now rewrite Rt).
  rewrite E, (_wait_for_next_token_sleeps env s1 T1 R1).
  set (s3 := exec (_update_token_count env) (asleep env s1)).
  exists (released (exec debit s3)), (tick env (world s)),
    (_tokens (self s1)), ((1 - _tokens (self s1)) / rate (self s)),
    (tick env (world (asleep env s1))), (_tokens (self s3)).
  split; [reflexivity|]. split; [exact T1|].
  split; [rewrite V, Rt; apply Qdiv_comp; [ring|reflexivity]|].
  split; [exact T|].
  change (trace (world (released (exec debit s3))))
    with ((((((((trace (world s) ++ [LockAcquire])
            ++ [ClockRead (tick env (world s))])
            ++ [StoreTokens (_tokens (self s1))])
            ++ [Sleep ((1 - _tokens (self s1)) / rate (self s))])
            ++ [ClockRead (tick env (world (asleep env s1)))])
            ++ [StoreTokens (_tokens (self s3))])
            ++ [StoreTokens (_tokens (self s3) - 1)])
            ++ [LockRelease]).
  rewrite <- !app_assoc. reflexivity.
Qed.

End Burst.

(** C6: on a limiter freshly constructed with [maxCapacity = N] and a rate
    [r] (which can divide), when the clock does not advance between the
    construction and the first update of the [(N+1)]th call, each of the
    first [N] calls of [acquire()] finds a count [v >= 1] at its update,
    debits and returns without a sleep; after them the count is [0]; and
    the [(N+1)]th call, at the same instant, finds [v < 1] and sleeps for
    [1 / r] before it updates again and debits. *)
Theorem burst_admission (env : Env) (N : nat) (r : Q) (w : World) :
  ~ r == 0 ->
  (forall j, (reads w < j <= reads w + N + 1)%nat -> jitter env j == 0) ->
  exists o w0,
    __init__ env (count N) r w = (Returned o, w0) /\
    let s0 := {| self := o; world := w0 |} in
    (forall k, (k < N)%nat ->
     exists sk sk' t v,
       acquire_times env k s0 = (Returned tt, sk) /\
       acquire env sk = (Returned tt, sk') /\
       1 <= v /\ t == now w0 /\
       trace (world sk')
       = trace (world sk)
           ++ [LockAcquire; ClockRead t; StoreTokens v;
               StoreTokens (v - 1); LockRelease]) /\
    exists sN,
      acquire_times env N s0 = (Returned tt, sN) /\
      _tokens (self sN) == 0 /\
      exists s' t v d t2 v2,
        acquire env sN = (Returned tt, s') /\
        v < 1 /\ d == 1 / r /\ t == now w0 /\
        trace (world s')
        = trace (world sN)
            ++ [LockAcquire; ClockRead t; StoreTokens v; Sleep d;
                ClockRead t2; StoreTokens v2;
                StoreTokens (v2 - 1); LockRelease].
Proof.
  intros R J.
  destruct (init_built env (count N) r w)
    as (o & w0 & Hi & Tk & Lu & Nw & Rt & Cp & Lk & Tr).
  exists o, w0. split; [exact Hi|]. intro s0.
  assert (Rd : reads w0 = S (reads w))
    by (unfold __init__ in Hi; simpl in Hi; injection Hi as _ <-;
        reflexivity).
  assert (I0 : idle_at (count N) r (count N) (now w0) (S (reads w)) s0).
  { split; [exact Lk|]. split; [exact Rt|]. split; [exact Cp|].
    simpl. rewrite Tk, Lu, Nw. repeat split; try reflexivity. exact Rd. }
  split.
  - intros k Hk.
    destruct (acquire_times_immediate env (count N) r (now w0) k
                (count N) (S (reads w)) s0)
      as (sk & A & Ik); trivial.
    { intros j Hj. apply J. lia. }
    { apply count_le. lia. }
    { apply Qle_refl. }
    pose proof (count_lt k N Hk) as M. pose proof (count_nonneg k) as K0.
    destruct (acquire_immediate env (count N) r (now w0)
                (count N - count k) (S (reads w) + k) sk)
      as (sk' & t & v & A' & _ & V & T & Tr'); trivial; try lra.
    { apply J. lia. }
    exists sk, sk', t, v. split; [exact A|]. split; [exact A'|].
    split; [rewrite V; exact M|]. split; assumption.
  - destruct (acquire_times_immediate env (count N) r (now w0) N
                (count N) (S (reads w)) s0)
      as (sN & A & IN); trivial; try apply Qle_refl.
    { intros j Hj. apply J. lia. }
    exists sN. split; [exact A|].
    assert (I' : idle_at (count N) r 0 (now w0) (S (reads w) + N) sN).
    { destruct IN as (F & Rt' & Cp' & Tk' & Rest).
      split; [exact F|]. split; [exact Rt'|]. split; [exact Cp'|].
      split; [rewrite Tk'; ring|exact Rest]. }
    split; [now destruct I' as (_ & _ & _ & Tk' & _)|].
    destruct (acquire_empty env (count N) r (now w0)
                (S (reads w) + N) sN R (count_nonneg N))
      as (s' & t & v & d & t2 & v2 & A' & V & D & T & Tr'); trivial.
    { apply J. lia. }
    exists s', t, v, d, t2, v2. repeat split; assumption.
Qed.

Lemma burst_admission_witness :
  (~ 1 == 0 /\
   forall j, (reads (fresh_world 0) < j <= reads (fresh_world 0) + 3 + 1)%nat ->
             jitter punctual j == 0) /\
  exists o w0 sN,
    __init__ punctual (count 3) 1 (fresh_world 0) = (Returned o, w0) /\
    acquire_times punctual 3 {| self := o; world := w0 |}
    = (Returned tt, sN) /\
    _tokens (self sN) == 0.
Proof.
  assert (R : ~ 1 == 0) by discriminate.
  assert (J : forall j,
             (reads (fresh_world 0) < j <= reads (fresh_world 0) + 3 + 1)%nat ->
             jitter punctual j == 0)
    by (intros j _; reflexivity).
  split; [split; assumption|].
  destruct (burst_admission punctual 3 1 (fresh_world 0) R J)
    as (o & w0 & Hi & _ & sN & A & T & _).
  exists o, w0, sN. repeat split; assumption.
Defined.

(** * The count in the arithmetic of the code *)

Section Binary64.

Import PrimFloat.
Local Open Scope float_scope.

(** C1, in binary64: the count is stored negative.  The limiter is
    constructed with the defaults ([max_capacity = 1], [rate = 1 / 60]) at
    clock value [0]; a first [acquire()] at [0] takes the token; a second
    one starts at [0.75], finds [v1 = 0.0125], and sleeps for the
    [59.25] it requests, exactly: the clock reads [0], [0], [0.75], [60].
    The second update then stores [v2 = 0.9999999999999999], below the
    one token waited for, and the debit stores [v2 - 1 = -1.1e-16 < 0],
    which is the count left. *)
Theorem binary64_count_goes_negative :
  let r := 1 / 60 in
  let v1 := (0.75 - 0) * r + 0 in
  let v2 := (60 - 0.75) * r + v1 in
  exists o w0 s1 s2,
    B64.__init__ B64.second_call_late 1 r (B64.fresh_world 0)
    = (Returned o, w0) /\
    B64.acquire B64.second_call_late {| B64.self := o; B64.world := w0 |}
    = (Returned tt, s1) /\
    B64.acquire B64.second_call_late s1 = (Returned tt, s2) /\
    B64.trace (B64.world s2)
    = [B64.StoreTokens 1; B64.ClockRead 0;
       B64.LockAcquire; B64.ClockRead 0; B64.StoreTokens 1;
       B64.StoreTokens 0; B64.LockRelease;
       B64.LockAcquire; B64.ClockRead 0.75; B64.StoreTokens v1;
       B64.Sleep 59.25; B64.ClockRead 60; B64.StoreTokens v2;
       B64.StoreTokens (v2 - 1); B64.LockRelease] /\
    (1 - v1) / r = 59.25 /\
    v2 = 0x1.fffffffffffffp-1 /\ (v2 <? 1) = true /\
    B64._tokens (B64.self s2) = -0x1p-53 /\
    (B64._tokens (B64.self s2) <? 0) = true.
Proof.
  intros r v1 v2.
  do 4 eexists.
  split; [reflexivity|]. split; [vm_compute; reflexivity|].
  split; [vm_compute; reflexivity|].
  repeat split; vm_compute; reflexivity.
Qed.

(** C7, in binary64: the second update falls short of one token.  The
    limiter is constructed with [max_capacity = 1] and [rate = 49] at clock
    value [0]; a first [acquire()] takes the token; a second one at the
    same instant finds [0], requests a sleep of [d = 1 / 49] and sleeps
    exactly that long (the clock reads [d], so that the elapsed time it
    computes is [d]).  The second update stores [d * 49], which is
    [0.9999999999999999 < 1], and the debit, made without looking at the
    count again, stores [-1.1e-16 < 0]. *)
Theorem binary64_second_update_falls_short :
  let d := (1 - 0) / 49 in
  let v2 := (d - 0) * 49 + 0 in
  exists o w0 s1 s2,
    B64.__init__ B64.punctual 1 49 (B64.fresh_world 0) = (Returned o, w0) /\
    B64.acquire B64.punctual {| B64.self := o; B64.world := w0 |}
    = (Returned tt, s1) /\
    B64._tokens (B64.self s1) = 0 /\
    B64.acquire B64.punctual s1 = (Returned tt, s2) /\
    B64.trace (B64.world s2)
    = B64.trace (B64.world s1)
        ++ [B64.LockAcquire; B64.ClockRead 0; B64.StoreTokens 0;
            B64.Sleep d; B64.ClockRead d; B64.StoreTokens v2;
            B64.StoreTokens (v2 - 1); B64.LockRelease] /\
    (v2 <? 1) = true /\ (v2 - 1 <? 0) = true /\
    B64._tokens (B64.self s2) = v2 - 1.
Proof.
  intros d v2.
  do 4 eexists.
  split; [reflexivity|]. split; [vm_compute; reflexivity|].
  split; [vm_compute; reflexivity|].
  split; [vm_compute; reflexivity|].
  repeat split; vm_compute; reflexivity.
Qed.

End Binary64.

(** * Further properties of the methods *)

(** ** How [async_lock] and [acquire] end *)

(** X1: on a free lock, [async with self.async_lock(lock)] runs its body
    with the lock held; when the body returns or raises without having
    touched the lock, the lock is released and the block ends as the body
    did. *)
Theorem async_lock_releases {A} (body : M A) (s : State) :
  _lock (self s) = false ->
  result body (locked s) <> Blocked ->
  _lock (self (exec body (locked s))) = true ->
  async_lock body s
  = (result body (locked s), released (exec body (locked s))) /\
  _lock (self (exec (async_lock body) s)) = false.
Proof.
  intros F NB H.
  assert (E : async_lock body s
              = (result body (locked s), released (exec body (locked s)))).
  { unfold async_lock.
    rewrite (bind_run _ _ s (locked s) tt)
      by (unfold lock_acquire; rewrite F; reflexivity).
    unfold try_finally, result, exec in *.
    destruct (body (locked s)) as [[a|e|] s1]; simpl in *.
    - now rewrite (lock_release_held s1 H).
    - now rewrite (lock_release_held s1 H).
    - now contradiction NB. }
  split; [exact E|]. unfold exec at 1. rewrite E. reflexivity.
Qed.

Lemma async_lock_releases_witness :
  (_lock (self full) = false /\
   result debit (locked full) <> Blocked /\
   _lock (self (exec debit (locked full))) = true) /\
  _lock (self (exec (async_lock debit) full)) = false.
Proof.
  assert (F : _lock (self full) = false) by reflexivity.
  assert (NB : result debit (locked full) <> Blocked) by discriminate.
  assert (H : _lock (self (exec debit (locked full))) = true)
    by reflexivity.
  split; [repeat split; assumption|].
  exact (proj2 (async_lock_releases debit full F NB H)).
Defined.

Section Paths.

Variable env : Env.

(** The three ways through [acquire()] on a free lock, with the state each
    one leaves. *)
Lemma acquire_paths (s : State) :
  _lock (self s) = false ->
  let s1 := exec (_update_token_count env) (locked s) in
  (1 <= _tokens (self s1) /\
   acquire env s = (Returned tt, released (exec debit s1)))
  \/
  (_tokens (self s1) < 1 /\ ~ rate (self s) == 0 /\
   acquire env s
   = (Returned tt,
      released (exec debit
                  (exec (_update_token_count env) (asleep env s1)))))
  \/
  (_tokens (self s1) < 1 /\ rate (self s) == 0 /\
   acquire env s = (Raised Py.ZeroDivisionError, released s1)).
Proof.
  intros F s1. rewrite (acquire_run env s F). fold s1.
  destruct (PyFacts.lt_cases (_tokens (self s1)) 1) as [[E T]|[E T]];
    rewrite E.
  - right. destruct (Qeq_dec (rate (self s)) 0) as [R|R].
    + right. split; [exact T|]. split; [exact R|].
      now rewrite (_wait_for_next_token_zero_rate env s1 T R).
    + left. split; [exact T|]. split; [exact R|].
      now rewrite (_wait_for_next_token_sleeps env s1 T R).
  - left. split; [exact T|]. reflexivity.
Qed.

End Paths.

(** X2: on a free lock, whatever the configuration and the clock,
    [acquire()] never blocks and has one of three histories.  It returns
    after debiting at once (its update stored [v1 >= 1]); or it returns
    after one sleep of [(1 - v1) / rate], one more update and the debit
    ([v1 < 1], the rate is not zero); or it raises [ZeroDivisionError]
    before any sleep or debit ([v1 < 1], the rate is zero).  In all three
    the lock is free again at the end. *)
Theorem acquire_outcomes (env : Env) (s : State) :
  _lock (self s) = false ->
  let t1 := tick env (world s) in
  let v1 := _tokens (self (exec (_update_token_count env) (locked s))) in
  exists s',
    _lock (self s') = false /\
    ((1 <= v1 /\
      acquire env s = (Returned tt, s') /\
      _tokens (self s') = v1 - 1 /\
      trace (world s') = trace (world s) ++ history_at_once t1 v1)
     \/
     (v1 < 1 /\ ~ rate (self s) == 0 /\
      exists t2 v2,
        acquire env s = (Returned tt, s') /\
        _tokens (self s') = v2 - 1 /\
        trace (world s')
        = trace (world s)
            ++ history_after_wait (rate (self s)) t1 v1 t2 v2)
     \/
     (v1 < 1 /\ rate (self s) == 0 /\
      acquire env s = (Raised Py.ZeroDivisionError, s') /\
      _tokens (self s') = v1 /\
      trace (world s') = trace (world s) ++ history_of_failure t1 v1)).
Proof.
  intros F t1 v1.
  destruct (acquire_paths env s F) as [(T & A)|[(T & R & A)|(T & R & A)]];
    fold v1 in T;
    set (s1 := exec (_update_token_count env) (locked s)) in *.
  - exists (released (exec debit s1)). split; [reflexivity|].
    left. split; [exact T|]. split; [exact A|]. split; [reflexivity|].
    change (trace (world (released (exec debit s1))))
      with (((((trace (world s) ++ [LockAcquire]) ++ [ClockRead t1])
              ++ [StoreTokens v1]) ++ [StoreTokens (v1 - 1)])
              ++ [LockRelease]).
    unfold history_at_once. rewrite <- !app_assoc. reflexivity.
  - set (s3 := exec (_update_token_count env) (asleep env s1)) in *.
    exists (released (exec debit s3)). split; [reflexivity|].
    right. left. split; [exact T|]. split; [exact R|].
    exists (tick env (world (asleep env s1))), (_tokens (self s3)).
    split; [exact A|]. split; [reflexivity|].
    change (trace (world (released (exec debit s3))))
      with ((((((((trace (world s) ++ [LockAcquire]) ++ [ClockRead t1])
              ++ [StoreTokens v1])
              ++ [Sleep ((1 - v1) / rate (self s))])
              ++ [ClockRead (tick env (world (asleep env s1)))])
              ++ [StoreTokens (_tokens (self s3))])
              ++ [StoreTokens (_tokens (self s3) - 1)])
              ++ [LockRelease]).
    unfold history_after_wait. rewrite <- !app_assoc. reflexivity.
  - exists (released s1). split; [reflexivity|].
    right. right. split; [exact T|]. split; [exact R|].
    split; [exact A|]. split; [reflexivity|].
    change (trace (world (released s1)))
      with ((((trace (world s) ++ [LockAcquire]) ++ [ClockRead t1])
              ++ [StoreTokens v1]) ++ [LockRelease]).
    unfold history_of_failure. rewrite <- !app_assoc. reflexivity.
Qed.

Lemma acquire_outcomes_witness :
  _lock (self stalled) = false /\
  exists s',
    acquire punctual stalled = (Raised Py.ZeroDivisionError, s') /\
    _lock (self s') = false.
Proof.
  assert (F : _lock (self stalled) = false) by reflexivity.
  split; [exact F|].
  destruct (acquire_outcomes punctual stalled F)
    as (s' & L & [(T & _)|[(_ & R & _)|(_ & _ & A & _)]]).
  - exfalso. revert T. vm_compute. intro T. apply T. reflexivity.
  - exfalso. apply R. reflexivity.
  - exists s'. split; assumption.
Defined.

(** ** Sequences of calls *)

Lemma acquire_held (env : Env) (s : State) :
  _lock (self s) = true -> acquire env s = (Blocked, s).
Proof.
  intro H. unfold acquire, async_lock, bind, lock_acquire. now rewrite H.
Qed.

Lemma acquire_times_next (env : Env) (n : nat) (s s1 : State) :
  acquire env s = (Returned tt, s1) ->
  acquire_times env (S n) s = acquire_times env n s1.
Proof. intro A. simpl. now rewrite (bind_run _ _ _ _ _ A). Qed.

Lemma acquire_times_raised (env : Env) (n : nat) (s s1 : State) e :
  acquire env s = (Raised e, s1) ->
  acquire_times env (S n) s = (Raised e, s1).
Proof. intro A. simpl. now rewrite (bind_raised _ _ _ _ _ A). Qed.

Lemma acquire_times_blocked (env : Env) (n : nat) (s s1 : State) :
  acquire env s = (Blocked, s1) ->
  acquire_times env (S n) s = (Blocked, s1).
Proof.
  intro A. change (acquire_times env (S n) s)
    with (bind (acquire env) (fun _ => acquire_times env n) s).
  unfold bind. now rewrite A.
Qed.

Lemma guarded_app (held : bool) (e1 e2 : list event) :
  guarded held e1 = true -> guarded false e2 = true ->
  guarded held (e1 ++ e2) = true.
Proof.
  revert held. induction e1 as [|e e1 IH]; intros held H1 H2.
  - destruct held; [discriminate | exact H2].
  - destruct e, held; simpl in *; try discriminate; now apply IH.
Qed.

Lemma naps_app (e1 e2 : list event) :
  naps (e1 ++ e2) = (naps e1 + naps e2)%nat.
Proof.
  induction e1 as [|e e1 IH]; [reflexivity|].
  destruct e; simpl; now rewrite ?IH.
Qed.

(** The history of one call on a free lock, whatever its outcome. *)
Lemma acquire_history (env : Env) (s : State) :
  _lock (self s) = false ->
  exists evs,
    trace (world (exec (acquire env) s)) = trace (world s) ++ evs /\
    guarded false evs = true /\ (naps evs <= 1)%nat /\
    _lock (self (exec (acquire env) s)) = false /\
    result (acquire env) s <> Blocked.
Proof.
  intro F. unfold exec, result.
  destruct (acquire_paths env s F) as [(T & A)|[(T & R & A)|(T & R & A)]];
    rewrite A; simpl fst; simpl snd;
    set (s1 := exec (_update_token_count env) (locked s)) in *.
  - exists (history_at_once (tick env (world s)) (_tokens (self s1))).
    split; [|repeat split; try discriminate; simpl; lia].
    change (trace (world (released (exec debit s1))))
      with (((((trace (world s) ++ [LockAcquire])
              ++ [ClockRead (tick env (world s))])
              ++ [StoreTokens (_tokens (self s1))])
              ++ [StoreTokens (_tokens (self s1) - 1)])
              ++ [LockRelease]).
    unfold history_at_once. rewrite <- !app_assoc. reflexivity.
  - set (s3 := exec (_update_token_count env) (asleep env s1)) in *.
    exists (history_after_wait (rate (self s)) (tick env (world s))
              (_tokens (self s1)) (tick env (world (asleep env s1)))
              (_tokens (self s3))).
    split; [|repeat split; try discriminate; simpl; lia].
    change (trace (world (released (exec debit s3))))
      with ((((((((trace (world s) ++ [LockAcquire])
              ++ [ClockRead (tick env (world s))])
              ++ [StoreTokens (_tokens (self s1))])
              ++ [Sleep ((1 - _tokens (self s1)) / rate (self s))])
              ++ [ClockRead (tick env (world (asleep env s1)))])
              ++ [StoreTokens (_tokens (self s3))])
              ++ [StoreTokens (_tokens (self s3) - 1)])
              ++ [LockRelease]).
    unfold history_after_wait. rewrite <- !app_assoc. reflexivity.
  - exists (history_of_failure (tick env (world s)) (_tokens (self s1))).
    split; [|repeat split; try discriminate; simpl; lia].
    change (trace (world (released s1)))
      with ((((trace (world s) ++ [LockAcquire])
              ++ [ClockRead (tick env (world s))])
              ++ [StoreTokens (_tokens (self s1))]) ++ [LockRelease]).
    unfold history_of_failure. rewrite <- !app_assoc. reflexivity.
Qed.

(** X3: whatever the configuration and the clock, and however the calls
    end, the history that [n] calls of [acquire()] add to a limiter with a
    free lock takes and releases the lock in turn, reads the clock, assigns
    the count and sleeps only while the lock is held (so the lock is held
    across every sleep), contains at most [n] sleeps, and ends with the
    lock free. *)
Theorem acquire_times_guarded (env : Env) (n : nat) (s : State) :
  _lock (self s) = false ->
  exists evs,
    trace (world (exec (acquire_times env n) s)) = trace (world s) ++ evs /\
    guarded false evs = true /\
    (naps evs <= n)%nat /\
    _lock (self (exec (acquire_times env n) s)) = false.
Proof.
  revert s. induction n as [|n IH]; intros s F.
  - exists []. simpl. rewrite app_nil_r. repeat split; trivial.
  - destruct (acquire_history env s F) as (e1 & Tr & G & Np & L & NB).
    unfold exec, result in *.
    destruct (acquire env s) as [[[]|e|] s1] eqn:A; simpl in Tr, L, NB.
    + rewrite (acquire_times_next env n s s1 A).
      destruct (IH s1 L) as (e2 & Tr2 & G2 & Np2 & L2).
      exists (e1 ++ e2). unfold exec in *.
      split; [now rewrite Tr2, Tr, app_assoc|].
      split; [now apply guarded_app|].
      split; [rewrite naps_app; lia | exact L2].
    + rewrite (acquire_times_raised env n s s1 e A). simpl.
      exists e1. repeat split; trivial. lia.
    + now contradiction NB.
Qed.

Lemma acquire_times_guarded_witness :
  _lock (self empty) = false /\
  exists evs,
    trace (world (exec (acquire_times punctual 3) empty)) = evs /\
    guarded false evs = true /\ (naps evs <= 3)%nat.
Proof.
  assert (F : _lock (self empty) = false) by reflexivity.
  split; [exact F|].
  destruct (acquire_times_guarded punctual 3 empty F)
    as (evs & Tr & G & Np & _).
  exists evs. split; [exact Tr|]. split; assumption.
Defined.

Section Clock.

Variable env : Env.
Hypothesis clock_ok : monotonic_clock env.

(** The clock and the last update across one call, whatever its outcome. *)
Lemma acquire_clock (s : State) :
  _last_token_update (self s) <= now (world s) ->
  let s' := exec (acquire env) s in
  _last_token_update (self s) <= _last_token_update (self s') /\
  _last_token_update (self s') <= now (world s') /\
  now (world s) <= now (world s').
Proof.
  intros L s'. unfold s', exec.
  destruct (_lock (self s)) eqn:F.
  { rewrite (acquire_held env s F). simpl.
    split; [apply Qle_refl|]. split; [exact L | apply Qle_refl]. }
  pose proof (tick_ge_now env clock_ok (world s)) as N.
  destruct (acquire_paths env s F) as [(T & A)|[(T & R & A)|(T & R & A)]];
    rewrite A; simpl snd;
    set (s1 := exec (_update_token_count env) (locked s)) in *.
  - change (_last_token_update (self (released (exec debit s1))))
      with (tick env (world s)).
    change (now (world (released (exec debit s1))))
      with (tick env (world s)).
    split; [lra|]. split; [apply Qle_refl | exact N].
  - set (s3 := exec (_update_token_count env) (asleep env s1)) in *.
    change (_last_token_update (self (released (exec debit s3))))
      with (tick env (world (asleep env s1))).
    change (now (world (released (exec debit s3))))
      with (tick env (world (asleep env s1))).
    pose proof (tick_ge_now env clock_ok (world (asleep env s1))) as N2.
    change (now (world (asleep env s1)))
      with (tick env (world s)
            + slept env (sleeps (world s))
                ((1 - _tokens (self s1)) / rate (self s))) in N2.
    destruct clock_ok as [_ Sl].
    specialize (Sl (sleeps (world s))
                  ((1 - _tokens (self s1)) / rate (self s))).
    split; [lra|]. split; [apply Qle_refl | lra].
  - change (_last_token_update (self (released s1)))
      with (tick env (world s)).
    change (now (world (released s1))) with (tick env (world s)).
    split; [lra|]. split; [apply Qle_refl | exact N].
Qed.

End Clock.

(** X4: under a monotonic clock, from a state whose last update is not in
    the future, [_last_token_update] never decreases over any number of
    calls of [acquire()], however they end, and it is never ahead of the
    clock. *)
Theorem last_update_never_decreases (env : Env) (n : nat) (s : State) :
  monotonic_clock env ->
  _last_token_update (self s) <= now (world s) ->
  let s' := exec (acquire_times env n) s in
  _last_token_update (self s) <= _last_token_update (self s') /\
  _last_token_update (self s') <= now (world s') /\
  now (world s) <= now (world s').
Proof.
  intro Ck. revert s. induction n as [|n IH]; intros s L s'.
  - unfold s'. simpl. split; [apply Qle_refl|].
    split; [exact L | apply Qle_refl].
  - destruct (acquire_clock env Ck s L) as (L1 & L2 & L3).
    unfold s', exec in *.
    destruct (acquire env s) as [[[]|e|] s1] eqn:A; simpl in L1, L2, L3.
    + rewrite (acquire_times_next env n s s1 A).
      destruct (IH s1 L2) as (M1 & M2 & M3). unfold exec in *.
      split; [lra|]. split; [exact M2 | lra].
    + rewrite (acquire_times_raised env n s s1 e A). simpl.
      repeat split; assumption.
    + rewrite (acquire_times_blocked env n s s1 A). simpl.
      repeat split; assumption.
Qed.

Lemma last_update_never_decreases_witness :
  (monotonic_clock punctual /\
   _last_token_update (self empty) <= now (world empty)) /\
  _last_token_update (self empty)
  <= _last_token_update (self (exec (acquire_times punctual 2) empty)).
Proof.
  assert (L : _last_token_update (self empty) <= now (world empty))
    by discriminate.
  split; [split; [exact punctual_monotonic | exact L]|].
  exact (proj1 (last_update_never_decreases punctual 2 empty
                  punctual_monotonic L)).
Defined.

(** ** A zero rate *)

Lemma acquire_times_add (env : Env) (n m : nat) (s s1 : State) :
  acquire_times env n s = (Returned tt, s1) ->
  acquire_times env (n + m) s = acquire_times env m s1.
Proof.
  revert s. induction n as [|n IH]; intros s A.
  - now injection A as <-.
  - destruct (acquire env s) as [[[]|e|] s0] eqn:B.
    + rewrite (acquire_times_next env n s s0 B) in A.
      change (S n + m)%nat with (S (n + m)).
      rewrite (acquire_times_next env (n + m) s s0 B). now apply IH.
    + rewrite (acquire_times_raised env n s s0 e B) in A. discriminate.
    + rewrite (acquire_times_blocked env n s s0 B) in A. discriminate.
Qed.

Section ZeroRate.

Variable env : Env.
Variables cap r : Q.
Hypothesis no_refill : r == 0.

(** Without refill an update stores the count it finds. *)
Lemma _update_token_count_no_refill (m : Q) (s : State) :
  holding cap r m s -> m <= cap ->
  _tokens (self (exec (_update_token_count env) (locked s))) == m.
Proof.
  intros (F & Rt & Cp & Tk) Le.
  change (_tokens (self (exec (_update_token_count env) (locked s))))
    with (Py.min ((tick env (world s) - _last_token_update (self s))
                  * rate (self s) + _tokens (self s))
            (max_capacity (self s))).
  assert (E : (tick env (world s) - _last_token_update (self s))
              * rate (self s) + _tokens (self s) == m)
    by (rewrite Rt, no_refill, Tk; ring).
  rewrite PyFacts.min_l; [exact E|]. now rewrite E, Cp.
Qed.

Lemma acquire_no_refill (m : Q) (s : State) :
  holding cap r m s -> 1 <= m -> m <= cap ->
  exists s',
    acquire env s = (Returned tt, s') /\ holding cap r (m - 1) s' /\
    sleeps (world s') = sleeps (world s).
Proof.
  intros H M Le.
  pose proof (_update_token_count_no_refill m s H Le) as V.
  destruct H as (F & Rt & Cp & Tk).
  destruct (acquire_paths env s F) as [(_ & A)|[(T & _)|(T & _)]];
    [|lra|lra].
  set (s1 := exec (_update_token_count env) (locked s)) in *.
  exists (released (exec debit s1)). split; [exact A|].
  split; [|reflexivity].
  split; [reflexivity|]. split; [exact Rt|]. split; [exact Cp|].
  change (_tokens (self (released (exec debit s1))))
    with (_tokens (self s1) - 1).
  now rewrite V.
Qed.

Lemma acquire_times_no_refill (k : nat) :
  forall (m : Q) (s : State),
  holding cap r m s -> count k <= m -> m <= cap ->
  exists s',
    acquire_times env k s = (Returned tt, s') /\
    holding cap r (m - count k) s' /\
    sleeps (world s') = sleeps (world s).
Proof.
  induction k as [|k IH]; intros m s H M Le.
  - exists s. split; [reflexivity|]. split; [|reflexivity].
    destruct H as (F & Rt & Cp & Tk). repeat (split; trivial).
    rewrite Tk. change (count 0) with 0. ring.
  - rewrite count_S in M. pose proof (count_nonneg k) as K0.
    destruct (acquire_no_refill m s H) as (s1 & A & H1 & S1); try lra.
    destruct (IH (m - 1) s1 H1) as (s2 & A2 & H2 & S2); try lra.
    exists s2. split; [now rewrite (acquire_times_next env k s s1 A)|].
    split; [|congruence].
    destruct H2 as (F & Rt & Cp & Tk). repeat (split; trivial).
    rewrite Tk, count_S. ring.
Qed.

(** On an empty bucket the call raises, and leaves an empty bucket. *)
Lemma acquire_dry (s : State) :
  holding cap r 0 s -> 0 <= cap ->
  exists s',
    acquire env s = (Raised Py.ZeroDivisionError, s') /\
    holding cap r 0 s' /\ sleeps (world s') = sleeps (world s).
Proof.
  intros H C.
  pose proof (_update_token_count_no_refill 0 s H C) as V.
  destruct H as (F & Rt & Cp & Tk).
  destruct (acquire_paths env s F) as [(T & _)|[(_ & R & _)|(_ & _ & A)]];
    [lra | now rewrite Rt in R |].
  set (s1 := exec (_update_token_count env) (locked s)) in *.
  exists (released s1). split; [exact A|]. split; [|reflexivity].
  split; [reflexivity|]. split; [exact Rt|]. split; [exact Cp|].
  exact V.
Qed.

End ZeroRate.

(** X9: a limiter constructed with [maxCapacity = N] and a zero rate never
    refills, whatever the clock does: its first [N] calls of [acquire()]
    return without any sleep and leave the count at [0]; every later call
    raises [ZeroDivisionError], with the lock released and the count still
    [0], so that any longer sequence of calls ends with that exception. *)
Theorem zero_rate_runs_dry (env : Env) (N k : nat) (r : Q) (w : World) :
  r == 0 ->
  exists o w0 sN s',
    __init__ env (count N) r w = (Returned o, w0) /\
    acquire_times env N {| self := o; world := w0 |} = (Returned tt, sN) /\
    _tokens (self sN) == 0 /\ sleeps (world sN) = sleeps w /\
    acquire env sN = (Raised Py.ZeroDivisionError, s') /\
    _lock (self s') = false /\ _tokens (self s') == 0 /\
    result (acquire env) s' = Raised Py.ZeroDivisionError /\
    result (acquire_times env (N + S k)) {| self := o; world := w0 |}
    = Raised Py.ZeroDivisionError.
Proof.
  intro R.
  destruct (init_built env (count N) r w)
    as (o & w0 & Hi & Tk & Lu & Nw & Rt & Cp & Lk & Tr).
  set (s0 := {| self := o; world := w0 |}).
  assert (Sw : sleeps w0 = sleeps w)
    by (unfold __init__ in Hi; simpl in Hi; injection Hi as _ <-;
        reflexivity).
  assert (H0 : holding (count N) r (count N) s0)
    by (split; [exact Lk|]; split; [exact Rt|]; split; [exact Cp|];
        simpl; now rewrite Tk).
  destruct (acquire_times_no_refill env (count N) r R N (count N) s0 H0)
    as (sN & A & HN & SN); try apply Qle_refl.
  assert (HN' : holding (count N) r 0 sN).
  { destruct HN as (F & Rt' & Cp' & Tk').
    repeat (split; trivial). rewrite Tk'. ring. }
  destruct (acquire_dry env (count N) r R sN HN' (count_nonneg N))
    as (s' & B & H' & _).
  destruct (acquire_dry env (count N) r R s' H' (count_nonneg N))
    as (s'' & B' & _).
  exists o, w0, sN, s'.
  split; [exact Hi|]. split; [exact A|].
  split; [now destruct HN' as (_ & _ & _ & T)|].
  split; [now rewrite SN|].
  split; [exact B|].
  split; [now destruct H' as (F & _)|].
  split; [now destruct H' as (_ & _ & _ & T)|].
  split; [unfold result; now rewrite B'|].
  unfold result. fold s0.
  rewrite (acquire_times_add env N (S k) s0 sN A).
  now rewrite (acquire_times_raised env k sN s' _ B).
Qed.

Lemma zero_rate_runs_dry_witness :
  0 == 0 /\
  result (acquire_times punctual (2 + 1))
    {| self := {| rate := 0; max_capacity := count 2; _lock := false;
                  _tokens := count 2; _last_token_update := 0 |};
       world := snd (__init__ punctual (count 2) 0 (fresh_world 0)) |}
  = Raised Py.ZeroDivisionError.
Proof.
  assert (R : 0 == 0) by reflexivity.
  split; [exact R|].
  destruct (zero_rate_runs_dry punctual 2 0 0 (fresh_world 0) R)
    as (o & w0 & sN & s' & Hi & _ & _ & _ & _ & _ & _ & _ & Z).
  injection Hi as <- <-. exact Z.
Defined.

(** ** The bucket never overflows *)

(** The assignments of one call, whatever its outcome. *)
Lemma acquire_capped (env : Env) (s : State) :
  exists evs,
    trace (world (exec (acquire env) s)) = trace (world s) ++ evs /\
    Forall (capped (max_capacity (self s))) evs.
Proof.
  destruct (_lock (self s)) eqn:F.
  { exists []. unfold exec. rewrite (acquire_held env s F). simpl.
    rewrite app_nil_r. split; [reflexivity | constructor]. }
  unfold exec.
  destruct (acquire_paths env s F) as [(T & A)|[(T & R & A)|(T & R & A)]];
    rewrite A; simpl snd;
    set (s1 := exec (_update_token_count env) (locked s)) in *;
    assert (V1 : _tokens (self s1) <= max_capacity (self s))
      by apply PyFacts.min_le_r.
  - exists (history_at_once (tick env (world s)) (_tokens (self s1))).
    split.
    + change (trace (world (released (exec debit s1))))
        with (((((trace (world s) ++ [LockAcquire])
                ++ [ClockRead (tick env (world s))])
                ++ [StoreTokens (_tokens (self s1))])
                ++ [StoreTokens (_tokens (self s1) - 1)])
                ++ [LockRelease]).
      unfold history_at_once. rewrite <- !app_assoc. reflexivity.
    + repeat (apply Forall_cons;
              [cbv beta iota delta [capped]; first [exact I | lra]|]).
      apply Forall_nil.
  - set (s3 := exec (_update_token_count env) (asleep env s1)) in *.
    assert (V3 : _tokens (self s3) <= max_capacity (self s))
      by apply PyFacts.min_le_r.
    exists (history_after_wait (rate (self s)) (tick env (world s))
              (_tokens (self s1)) (tick env (world (asleep env s1)))
              (_tokens (self s3))).
    split.
    + change (trace (world (released (exec debit s3))))
        with ((((((((trace (world s) ++ [LockAcquire])
                ++ [ClockRead (tick env (world s))])
                ++ [StoreTokens (_tokens (self s1))])
                ++ [Sleep ((1 - _tokens (self s1)) / rate (self s))])
                ++ [ClockRead (tick env (world (asleep env s1)))])
                ++ [StoreTokens (_tokens (self s3))])
                ++ [StoreTokens (_tokens (self s3) - 1)])
                ++ [LockRelease]).
      unfold history_after_wait. rewrite <- !app_assoc. reflexivity.
    + repeat (apply Forall_cons;
              [cbv beta iota delta [capped]; first [exact I | lra]|]).
      apply Forall_nil.
  - exists (history_of_failure (tick env (world s)) (_tokens (self s1))).
    split.
    + change (trace (world (released s1)))
        with ((((trace (world s) ++ [LockAcquire])
                ++ [ClockRead (tick env (world s))])
                ++ [StoreTokens (_tokens (self s1))]) ++ [LockRelease]).
      unfold history_of_failure. rewrite <- !app_assoc. reflexivity.
    + repeat (apply Forall_cons;
              [cbv beta iota delta [capped]; first [exact I | lra]|]).
      apply Forall_nil.
Qed.

(** X10: the bucket never overflows.  With no assumption on the
    configuration, the lock, the clock or the sleeps, and however the calls
    end, no assignment made to the token count during [n] calls of
    [acquire()] stores more than [max_capacity]. *)
Theorem tokens_never_exceed_capacity (env : Env) (n : nat) (s : State) :
  exists evs,
    trace (world (exec (acquire_times env n) s)) = trace (world s) ++ evs /\
    Forall (capped (max_capacity (self s))) evs.
Proof.
  revert s. induction n as [|n IH]; intro s.
  - exists []. simpl. rewrite app_nil_r. split; [reflexivity|constructor].
  - destruct (acquire_capped env s) as (e1 & Tr & C1).
    destruct (keeps_acquire env s) as [_ Cc].
    unfold exec in *.
    destruct (acquire env s) as [[[]|e|] s1] eqn:A; simpl in Tr, Cc.
    + rewrite (acquire_times_next env n s s1 A).
      destruct (IH s1) as (e2 & Tr2 & C2). unfold exec in Tr2.
      exists (e1 ++ e2). split; [now rewrite Tr2, Tr, app_assoc|].
      apply Forall_app. split; [exact C1|]. now rewrite <- Cc.
    + rewrite (acquire_times_raised env n s s1 e A). now exists e1.
    + rewrite (acquire_times_blocked env n s s1 A). now exists e1.
Qed.

(** ** A burst after an idle gap *)

Section Idle.

Variable env : Env.
Variable r : Q.
Variable N : nat.

(** The first call after a gap long enough to fill the bucket. *)
Lemma acquire_after_idle (s : State) :
  _lock (self s) = false ->
  rate (self s) = r -> max_capacity (self s) = count (S N) ->
  count (S N)
  <= _tokens (self s)
     + (tick env (world s) - _last_token_update (self s)) * r ->
  exists s1,
    acquire env s = (Returned tt, s1) /\
    idle_at (count (S N)) r (count N) (tick env (world s))
      (S (reads (world s))) s1.
Proof.
  intros F Rt Cp G.
  set (s1 := exec (_update_token_count env) (locked s)).
  assert (V : _tokens (self s1) == count (S N)).
  { change (_tokens (self s1))
      with (Py.min ((tick env (world s) - _last_token_update (self s))
                    * rate (self s) + _tokens (self s))
              (max_capacity (self s))).
    rewrite PyFacts.min_Qmin, Rt, Cp. apply Q.min_r. lra. }
  pose proof (count_nonneg N) as K0. pose proof (count_S N) as KS.
  destruct (acquire_paths env s F) as [(_ & A)|[(T & _)|(T & _)]];
    [|fold s1 in T; lra|fold s1 in T; lra].
  fold s1 in A.
  exists (released (exec debit s1)). split; [exact A|].
  split; [reflexivity|]. split; [exact Rt|]. split; [exact Cp|].
  split; [|repeat split; reflexivity].
  change (_tokens (self (released (exec debit s1))))
    with (_tokens (self s1) - 1).
  rewrite V, KS. ring.
Qed.

End Idle.

(** X11: a burst after an idle gap.  On a limiter with
    [maxCapacity = N + 1] and a rate [r] that is not zero, when the gap
    since the last update is long enough to fill the bucket
    ([tokens + (now - lastUpdate) * r >= maxCapacity]) and the clock then
    stands still, the next [N + 1] calls of [acquire()] all return at the
    instant of the first, leaving the count at [0], and the call after them
    finds less than a token and sleeps for [1 / r]. *)
Theorem burst_after_idle (env : Env) (N : nat) (r : Q) (s : State) :
  ~ r == 0 ->
  _lock (self s) = false ->
  rate (self s) = r -> max_capacity (self s) = count (S N) ->
  count (S N)
  <= _tokens (self s)
     + (tick env (world s) - _last_token_update (self s)) * r ->
  (forall j, (reads (world s) < j <= reads (world s) + S N)%nat ->
             jitter env j == 0) ->
  exists sN,
    acquire_times env (S N) s = (Returned tt, sN) /\
    _tokens (self sN) == 0 /\
    now (world sN) == tick env (world s) /\
    exists s' t v d t2 v2,
      acquire env sN = (Returned tt, s') /\
      v < 1 /\ d == 1 / r /\ t == tick env (world s) /\
      trace (world s')
      = trace (world sN)
          ++ [LockAcquire; ClockRead t; StoreTokens v; Sleep d;
              ClockRead t2; StoreTokens v2;
              StoreTokens (v2 - 1); LockRelease].
Proof.
  intros R F Rt Cp G J.
  destruct (acquire_after_idle env r N s F Rt Cp G) as (s1 & A & I1).
  pose proof (count_nonneg N) as K0. pose proof (count_S N) as KS.
  destruct (acquire_times_immediate env (count (S N)) r
              (tick env (world s)) N (count N) (S (reads (world s))) s1)
    as (sN & AN & IN); trivial; try lra.
  { intros j Hj. apply J. lia. }
  assert (I0 : idle_at (count (S N)) r 0 (tick env (world s))
                 (S (reads (world s)) + N) sN).
  { destruct IN as (F' & Rt' & Cp' & Tk' & Rest).
    split; [exact F'|]. split; [exact Rt'|]. split; [exact Cp'|].
    split; [rewrite Tk'; ring | exact Rest]. }
  exists sN.
  split; [now rewrite (acquire_times_next env N s s1 A)|].
  split; [now destruct I0 as (_ & _ & _ & T & _)|].
  split; [now destruct I0 as (_ & _ & _ & _ & _ & Nw & _)|].
  destruct (acquire_empty env (count (S N)) r (tick env (world s))
              (S (reads (world s)) + N) sN R (count_nonneg (S N)))
    as (s' & t & v & d & t2 & v2 & A' & V & D & T & Tr'); trivial.
  { apply J. lia. }
  exists s', t, v, d, t2, v2.
  split; [exact A'|]. split; [exact V|]. split; [exact D|].
  split; [exact T|]. exact Tr'.
Qed.

Lemma burst_after_idle_witness :
  (~ 1 == 0 /\ _lock (self refilling) = false /\
   rate (self refilling) = 1 /\ max_capacity (self refilling) = count 3) /\
  exists sN,
    acquire_times punctual 3 refilling = (Returned tt, sN) /\
    _tokens (self sN) == 0 /\ now (world sN) == 5.
Proof.
  assert (R : ~ 1 == 0) by discriminate.
  assert (F : _lock (self refilling) = false) by reflexivity.
  assert (Rt : rate (self refilling) = 1) by reflexivity.
  assert (Cp : max_capacity (self refilling) = count 3) by reflexivity.
  assert (G : count 3
              <= _tokens (self refilling)
                 + (tick punctual (world refilling)
                    - _last_token_update (self refilling)) * 1)
    by discriminate.
  assert (J : forall j,
             (reads (world refilling) < j
              <= reads (world refilling) + 3)%nat ->
             jitter punctual j == 0)
    by (intros j _; reflexivity).
  split; [repeat split; assumption|].
  destruct (burst_after_idle punctual 2 1 refilling R F Rt Cp G J)
    as (sN & A & T & Nw & _).
  exists sN. split; [exact A|]. split; [exact T|].
  rewrite Nw. reflexivity.
Defined.

(** ** How long a call asks to sleep *)

(** X14: with [maxCapacity >= 1] and [rate > 0], under a monotonic clock,
    a call of [acquire()] from a state between two calls requests a sleep
    only for a time in [(0, 1 / rate]]: every sleep it adds to the history
    is for more than nothing and for at most [1 / rate]. *)
Theorem requested_sleep_is_bounded (env : Env) (s : State) :
  monotonic_clock env -> valid_config (self s) -> ready s ->
  exists evs,
    trace (world (exec (acquire env) s)) = trace (world s) ++ evs /\
    Forall (nap_within (1 / rate (self s))) evs.
Proof.
  intros Ck [C R] (F & [T0 T1] & L).
  assert (B1 : 0 <= _tokens (self (exec (_update_token_count env)
                                      (locked s)))
               <= max_capacity (self s))
    by (apply (_update_token_count_bounds env Ck (locked s)); simpl; lra).
  unfold exec at 1.
  destruct (acquire_paths env s F) as [(T & A)|[(T & R0 & A)|(T & R0 & A)]];
    [| |lra]; rewrite A; simpl snd;
    set (s1 := exec (_update_token_count env) (locked s)) in *.
  - exists (history_at_once (tick env (world s)) (_tokens (self s1))).
    split.
    + change (trace (world (released (exec debit s1))))
        with (((((trace (world s) ++ [LockAcquire])
                ++ [ClockRead (tick env (world s))])
                ++ [StoreTokens (_tokens (self s1))])
                ++ [StoreTokens (_tokens (self s1) - 1)])
                ++ [LockRelease]).
      unfold history_at_once. rewrite <- !app_assoc. reflexivity.
    + repeat (apply Forall_cons; [exact I|]). apply Forall_nil.
  - set (s3 := exec (_update_token_count env) (asleep env s1)) in *.
    exists (history_after_wait (rate (self s)) (tick env (world s))
              (_tokens (self s1)) (tick env (world (asleep env s1)))
              (_tokens (self s3))).
    split.
    + change (trace (world (released (exec debit s3))))
        with ((((((((trace (world s) ++ [LockAcquire])
                ++ [ClockRead (tick env (world s))])
                ++ [StoreTokens (_tokens (self s1))])
                ++ [Sleep ((1 - _tokens (self s1)) / rate (self s))])
                ++ [ClockRead (tick env (world (asleep env s1)))])
                ++ [StoreTokens (_tokens (self s3))])
                ++ [StoreTokens (_tokens (self s3) - 1)])
                ++ [LockRelease]).
      unfold history_after_wait. rewrite <- !app_assoc. reflexivity.
    + assert (D : 0 < (1 - _tokens (self s1)) / rate (self s)
                  <= 1 / rate (self s)).
      { split.
        - apply Qlt_shift_div_l; [exact R | lra].
        - apply Qle_shift_div_l; [exact R|].
          assert (E' : (1 - _tokens (self s1)) / rate (self s)
                       * rate (self s) == 1 - _tokens (self s1))
            by (field; lra).
          rewrite E'. lra. }
      unfold history_after_wait.
      repeat (apply Forall_cons;
              [cbv beta iota delta [nap_within]; first [exact I | exact D]|]).
      apply Forall_nil.
Qed.

Lemma requested_sleep_is_bounded_witness :
  (monotonic_clock punctual /\ valid_config (self empty) /\ ready empty) /\
  exists evs,
    trace (world (exec (acquire punctual) empty)) = evs /\
    Forall (nap_within 2) evs.
Proof.
  assert (V : valid_config (self empty))
    by (split; [discriminate|reflexivity]).
  assert (Rd : ready empty)
    by (split; [reflexivity|split; [split|]; discriminate]).
  split; [split; [exact punctual_monotonic | split; [exact V | exact Rd]]|].
  destruct (requested_sleep_is_bounded punctual empty
              punctual_monotonic V Rd) as (evs & Tr & Fa).
  exists evs. split; [exact Tr | exact Fa].
Defined.

(** ** The first calls never wait *)

Section AnyClock.

Variable env : Env.
Hypothesis clock_ok : monotonic_clock env.
Variables cap r : Q.
Hypothesis rate_ok : 0 <= r.

(** A call that finds at least a token, whenever it is made. *)
Lemma acquire_stocked (m : Q) (s : State) :
  stocked_with cap r m s -> 1 <= m ->
  exists s',
    acquire env s = (Returned tt, s') /\
    stocked_with cap r (m - 1) s' /\
    sleeps (world s') = sleeps (world s).
Proof.
  intros (F & Rt & Cp & [M0 M1] & L) M.
  set (s1 := exec (_update_token_count env) (locked s)).
  assert (V : m <= _tokens (self s1) <= cap).
  { change (_tokens (self s1))
      with (Py.min ((tick env (world s) - _last_token_update (self s))
                    * rate (self s) + _tokens (self s))
              (max_capacity (self s))).
    rewrite Cp. split; [|apply PyFacts.min_le_r].
    apply PyFacts.min_glb; [|lra].
    pose proof (tick_ge_now env clock_ok (world s)) as N.
    assert (0 <= (tick env (world s) - _last_token_update (self s))
                 * rate (self s))
      by (apply Qmult_le_0_compat; [lra | now rewrite Rt]).
    lra. }
  destruct (acquire_paths env s F) as [(_ & A)|[(T & _)|(T & _)]];
    [|fold s1 in T; lra|fold s1 in T; lra].
  fold s1 in A.
  exists (released (exec debit s1)). split; [exact A|].
  split; [|reflexivity].
  split; [reflexivity|]. split; [exact Rt|]. split; [exact Cp|].
  split; [|apply Qle_refl].
  change (_tokens (self (released (exec debit s1))))
    with (_tokens (self s1) - 1).
  lra.
Qed.

Lemma acquire_times_stocked (k : nat) :
  forall (m : Q) (s : State),
  stocked_with cap r m s -> count k <= m ->
  exists s',
    acquire_times env k s = (Returned tt, s') /\
    stocked_with cap r (m - count k) s' /\
    sleeps (world s') = sleeps (world s).
Proof.
  induction k as [|k IH]; intros m s H M.
  - exists s. split; [reflexivity|]. split; [|reflexivity].
    destruct H as (F & Rt & Cp & [M0 M1] & L).
    repeat (split; trivial). change (count 0) with 0. lra.
  - rewrite count_S in M. pose proof (count_nonneg k) as K0.
    destruct (acquire_stocked m s H) as (s1 & A & H1 & S1); [lra|].
    destruct (IH (m - 1) s1 H1) as (s2 & A2 & H2 & S2); [lra|].
    exists s2. split; [now rewrite (acquire_times_next env k s s1 A)|].
    split; [|congruence].
    destruct H2 as (F & Rt & Cp & [M0 M1] & L).
    repeat (split; trivial). rewrite count_S. lra.
Qed.

End AnyClock.

(** X15: the first calls never wait.  On a limiter constructed with
    [maxCapacity = N] and a rate that is not negative, under a monotonic
    clock and however much time passes between the calls, the first [N]
    calls of [acquire()] return without any sleep, and leave a count in
    [[0, N]]. *)
Theorem first_calls_never_wait (env : Env) (N : nat) (r : Q) (w : World) :
  monotonic_clock env -> 0 <= r ->
  exists o w0 sN,
    __init__ env (count N) r w = (Returned o, w0) /\
    acquire_times env N {| self := o; world := w0 |} = (Returned tt, sN) /\
    sleeps (world sN) = sleeps w /\
    0 <= _tokens (self sN) <= count N.
Proof.
  intros Ck R.
  destruct (init_built env (count N) r w)
    as (o & w0 & Hi & Tk & Lu & Nw & Rt & Cp & Lk & Tr).
  set (s0 := {| self := o; world := w0 |}).
  assert (Sw : sleeps w0 = sleeps w)
    by (unfold __init__ in Hi; simpl in Hi; injection Hi as _ <-;
        reflexivity).
  assert (H0 : stocked_with (count N) r (count N) s0).
  { split; [exact Lk|]. split; [exact Rt|]. split; [exact Cp|]. simpl.
    rewrite Tk, Lu, Nw.
    split; [split|]; apply Qle_refl. }
  destruct (acquire_times_stocked env Ck (count N) r R N (count N) s0 H0)
    as (sN & A & (_ & _ & _ & [M0 M1] & _) & SN); [apply Qle_refl|].
  exists o, w0, sN. split; [exact Hi|]. split; [exact A|].
  split; [now rewrite SN|]. split; lra.
Qed.

Lemma first_calls_never_wait_witness :
  (monotonic_clock punctual /\ 0 <= 1 # 2) /\
  exists o w0 sN,
    __init__ punctual (count 3) (1 # 2) (fresh_world 0)
    = (Returned o, w0) /\
    acquire_times punctual 3 {| self := o; world := w0 |}
    = (Returned tt, sN) /\
    sleeps (world sN) = sleeps (fresh_world 0).
Proof.
  assert (R : 0 <= 1 # 2) by discriminate.
  split; [split; [exact punctual_monotonic | exact R]|].
  destruct (first_calls_never_wait punctual 3 (1 # 2) (fresh_world 0)
              punctual_monotonic R) as (o & w0 & sN & Hi & A & S' & _).
  exists o, w0, sN. repeat split; assumption.
Defined.
